(** * TESSHacks [data_wrangling.py]: catalog builder, cross-match merger
      and light-curve reader, embedded and checked against their description.

    The three Python functions of [code/data_wrangling.py] are translated
    below, statement by statement:

    - [read_tess_info]        (lines 7-66),
    - [crossmatch_gaia]       (lines 68-99),
    - [read_tess_lightcurve]  (lines 102-166).

    Modelling conventions.
    - A Python [str] is a [string] of ASCII characters.
    - A Python [int] is a [Z]; a float is a [spec_float] (IEEE-754 datum
      without payload), on which only [np.isfinite] and [==] are used.
    - An exception is a value of [exception]; a computation that may raise
      has type [result A].
    - The outside world (directory listing, parsed CSV files, parsed FITS
      files, module-level names) is an explicit, read-only [world]. *)

From Stdlib Require Import ZArith List Bool Ascii String Sorted Lia.
From Stdlib Require Import Floats.SpecFloat.
From stdpp Require Import base option list strings gmap.

Import ListNotations.
Local Open Scope string_scope.
Local Open Scope Z_scope.

(** ** Exceptions and fallible computations *)

Inductive exception : Type :=
| IndexError
| ValueError
| TypeError
| AttributeError
| InvalidIndexError
| OSError
| EmptyDataError
| ParserError
| KeyError (key : string)
| NameError (name : string)
| FileNotFoundError (path : string).

Inductive result (A : Type) : Type :=
| Ok (a : A)
| Raise (e : exception).
Arguments Ok {A} a.
Arguments Raise {A} e.

#[global] Instance result_ret : MRet result := fun A a => Ok a.
#[global] Instance result_bind : MBind result := fun A B k m =>
  match m with
  | Ok a => k a
  | Raise e => Raise e
  end.
#[global] Instance result_fmap : FMap result := fun A B f m =>
  match m with
  | Ok a => Ok (f a)
  | Raise e => Raise e
  end.

(** A [for] loop whose body may raise and which appends one item per
    iteration: the first exception aborts the loop. *)
Fixpoint for_each {A B} (body : A -> result B) (l : list A) : result (list B) :=
  match l with
  | [] => Ok []
  | x :: l' => y ← body x; ys ← for_each body l'; Ok (y :: ys)
  end.

(** ** Python values *)

Inductive scalar : Type :=
| Str (s : string)
| Int (z : Z)
| Float (f : spec_float).

Definition NaN : scalar := Float S754_nan.

(** A value bound to a name or stored in a returned [dict]. *)
Inductive value : Type :=
| Scalar (x : scalar)
| Array (a : list scalar).

(** [l[i]] on a Python list, negative indices counting from the end. *)
Definition getitem {A} (l : list A) (i : Z) : result A :=
  let n := Z.of_nat (length l) in
  let j := if i <? 0 then i + n else i in
  if (j <? 0) || (n <=? j) then Raise IndexError
  else match nth_error l (Z.to_nat j) with
       | Some x => Ok x
       | None => Raise IndexError
       end.

(** An insertion-ordered [dict] with string keys. *)
Definition dict (V : Type) : Type := list (string * V).

Fixpoint dict_set {V} (d : dict V) (k : string) (v : V) : dict V :=
  match d with
  | [] => [(k, v)]
  | (k', v') :: d' =>
      if String.eqb k' k then (k', v) :: d' else (k', v') :: dict_set d' k v
  end.

Fixpoint dict_get {V} (d : dict V) (k : string) : option V :=
  match d with
  | [] => None
  | (k', v') :: d' => if String.eqb k' k then Some v' else dict_get d' k
  end.

Definition dict_keys {V} (d : dict V) : list string := map fst d.

(** ** Strings *)

(** [s.split(sep)] for a one-character separator. *)
Fixpoint split (sep : ascii) (s : string) : list string :=
  match s with
  | EmptyString => [EmptyString]
  | String c s' =>
      if Ascii.eqb c sep then EmptyString :: split sep s'
      else match split sep s' with
           | tok :: toks => String c tok :: toks
           | [] => [String c EmptyString]
           end
  end.

(** Characters [int()] strips from an ASCII string: U+0009..U+000D and
    U+0020. *)
Definition is_space (c : ascii) : bool :=
  let n := nat_of_ascii c in
  ((9 <=? n) && (n <=? 13) || (n =? 32))%nat.

Fixpoint lstrip (s : string) : string :=
  match s with
  | String c s' => if is_space c then lstrip s' else s
  | EmptyString => EmptyString
  end.

Fixpoint rstrip (s : string) : string :=
  match s with
  | EmptyString => EmptyString
  | String c s' =>
      match rstrip s' with
      | EmptyString => if is_space c then EmptyString else String c EmptyString
      | r => String c r
      end
  end.

Definition strip (s : string) : string := rstrip (lstrip s).

(** Characters [str.rstrip()] strips from an ASCII string: those of
    [int()] and U+001C..U+001F. *)
Definition is_str_space (c : ascii) : bool :=
  let n := nat_of_ascii c in
  ((9 <=? n) && (n <=? 13) || (28 <=? n) && (n <=? 31) || (n =? 32))%nat.

(** [s.rstrip()]. *)
Fixpoint str_rstrip (s : string) : string :=
  match s with
  | EmptyString => EmptyString
  | String c s' =>
      match str_rstrip s' with
      | EmptyString => if is_str_space c then EmptyString else String c EmptyString
      | r => String c r
      end
  end.

(** [s.lower()] on an ASCII string. *)
Definition lower_char (c : ascii) : ascii :=
  let n := nat_of_ascii c in
  if ((65 <=? n) && (n <=? 90))%nat then ascii_of_nat (n + 32) else c.

Fixpoint lower (s : string) : string :=
  match s with
  | EmptyString => EmptyString
  | String c s' => String (lower_char c) (lower s')
  end.

Definition digit_val (c : ascii) : option Z :=
  let n := nat_of_ascii c in
  if ((48 <=? n) && (n <=? 57))%nat then Some (Z.of_nat n - 48) else None.

(** Decimal digits with single underscores allowed between two digits;
    [prev] tells whether the previous character was a digit. *)
Fixpoint parse_digits (acc : Z) (prev : bool) (s : string) : option Z :=
  match s with
  | EmptyString => if prev then Some acc else None
  | String c s' =>
      if Ascii.eqb c "_"%char then
        if prev then parse_digits acc false s' else None
      else match digit_val c with
           | Some d => parse_digits (10 * acc + d) true s'
           | None => None
           end
  end.

(** [int(s)] in base ten: surrounding whitespace, one optional sign, digits. *)
Definition int_of_str (s : string) : option Z :=
  match strip s with
  | String c r =>
      if Ascii.eqb c "+"%char then parse_digits 0 false r
      else if Ascii.eqb c "-"%char then Z.opp <$> parse_digits 0 false r
      else parse_digits 0 false (String c r)
  | EmptyString => None
  end.

(** [np.int] is the builtin [int] (NumPy releases that still export it);
    a token that is not a decimal integer raises [ValueError]. *)
Definition np_int (s : string) : result Z :=
  match int_of_str s with
  | Some z => Ok z
  | None => Raise ValueError
  end.

(** ** Tables ([pd.DataFrame]) *)

(** A table: column labels and, per row, one cell per column.  A null
    cell is [NaN].  The integer row index is the position in [rows]. *)
Record DataFrame : Type := {
  columns : list string;
  rows : list (list scalar)
}.

Definition nrows (df : DataFrame) : nat := length (rows df).

(** Position of the first column labelled [c]. *)
Fixpoint column_index (cols : list string) (c : string) : option nat :=
  match cols with
  | [] => None
  | c' :: cols' =>
      if String.eqb c' c then Some O else S <$> column_index cols' c
  end.

(** The cell of row [r] (laid out along [cols]) under label [c]; null when
    the row has no such column. *)
Definition cell (cols : list string) (r : list scalar) (c : string) : scalar :=
  match column_index cols c with
  | Some i => nth i r NaN
  | None => NaN
  end.

(** Labels of [l2] that are not yet in [l1], appended in order of first
    appearance. *)
Fixpoint add_labels (l1 l2 : list string) : list string :=
  match l2 with
  | [] => l1
  | c :: l2' =>
      if existsb (String.eqb c) l1 then add_labels l1 l2'
      else add_labels (l1 ++ [c])%list l2'
  end.

(** [pd.DataFrame(records)] for a list of dicts: the columns are the keys
    in order of first appearance, a key missing from a dict gives a null. *)
Definition DataFrame_of_records (records : list (dict scalar)) : DataFrame :=
  let cols := fold_left (fun acc d => add_labels acc (dict_keys d)) records [] in
  {| columns := cols;
     rows := map (fun d => map (fun c => default NaN (dict_get d c)) cols) records |}.

(** ** The outside world *)

(** What NumPy makes of the format of a field: a number type or a
    character string type. *)
Inductive dtype : Type :=
| numeric
| text.

(** One table extension of a FITS file ([FITS_rec]): field names, the
    type of each field, and records; every field has one value per
    record. *)
Record FITS_rec : Type := {
  names : list string;
  formats : list dtype;
  records : list (list scalar)
}.

(** A header-data unit: header cards and, for a table extension, its data. *)
Record HDU : Type := {
  header : gmap string scalar;
  data : option FITS_rec
}.

Record world : Type := {
  (** [glob.glob(pattern, recursive=True)]: the paths the pattern matches. *)
  glob_glob : string -> list string;
  (** Readable CSV files, as [pd.read_csv] parses them. *)
  csv_files : gmap string DataFrame;
  (** Readable FITS files, as [fits.open] lists their units. *)
  fits_files : gmap string (list HDU);
  (** What reading a path that is in neither map raises, when the path
      exists (unparsable content, a directory, no permission); a path that
      is in none of the three maps does not exist. *)
  io_errors : gmap string exception;
  (** Names bound at module level. *)
  globals : gmap string value
}.

(** ** Catalog builder: [read_tess_info] *)

(** Body of the loop at lines 39-61, for one path [f]. *)
Definition single_info (f : string) : result (dict scalar) :=
  let single_info : dict scalar := [] in
  let fsplit := split "/" f in
  subdir ← getitem fsplit (-2);
  let single_info := dict_set single_info "subdir" (Str subdir) in
  filename ← getitem fsplit (-1);
  let single_info := dict_set single_info "filename" (Str filename) in
  let fname_split := split "-" filename in
  daterange ← getitem fname_split 0;
  let single_info := dict_set single_info "daterange" (Str daterange) in
  sector_no ← getitem fname_split 1;
  let single_info := dict_set single_info "sector_no" (Str sector_no) in
  tok ← getitem fname_split 2;
  tess_id ← np_int tok;
  let single_info := dict_set single_info "tess_id" (Int tess_id) in
  cadence ← getitem fname_split 3;
  let single_info := dict_set single_info "cadence" (Str cadence) in
  Ok single_info.

Definition read_tess_info (w : world) (datadir : string) : result DataFrame :=
  let datafiles := glob_glob w (datadir +:+ "**/*.fits") in
  tess_info ← for_each single_info datafiles;
  Ok (DataFrame_of_records tess_info).

(** ** Cross-match merger: [crossmatch_gaia] *)

(** [pd.read_csv(path)]. *)
Definition read_error (w : world) (path : string) : exception :=
  match io_errors w !! path with
  | Some e => e
  | None => FileNotFoundError path
  end.

Definition read_csv (w : world) (path : string) : result DataFrame :=
  match csv_files w !! path with
  | Some df => Ok df
  | None => Raise (read_error w path)
  end.

Fixpoint has_duplicates (l : list string) : bool :=
  match l with
  | [] => false
  | c :: l' => existsb (String.eqb c) l' || has_duplicates l'
  end.

Fixpoint insert_sorted (c : string) (l : list string) : list string :=
  match l with
  | [] => [c]
  | c' :: l' => if String.leb c c' then c :: l else c' :: insert_sorted c l'
  end.

Definition sort_labels (l : list string) : list string :=
  fold_right insert_sorted [] l.

(** Row [r] of a table with columns [cols], laid out along [new_cols]. *)
Definition reindex_row (cols new_cols : list string) (r : list scalar) : list scalar :=
  map (cell cols r) new_cols.

(** The float64 nearest to an integer (ties to even). *)
Definition float_of_int (z : Z) : spec_float := binary_normalize 53 1024 z 0 false.

(** A cell of an integer column that becomes a float64 column. *)
Definition to_float (x : scalar) : scalar :=
  match x with
  | Int z => Float (float_of_int z)
  | Float _ | Str _ => x
  end.

Definition is_float (x : scalar) : bool :=
  match x with Float _ => true | Int _ | Str _ => false end.

Definition is_str (x : scalar) : bool :=
  match x with Str _ => true | Int _ | Float _ => false end.

(** A column that holds a float (a null is one) and no string is a
    float64 column; a column that holds a string is an object column and a
    column of integers alone stays an integer column. *)
Definition floating (cols : list string) (table : list (list scalar)) (c : string) : bool :=
  existsb (fun r => is_float (cell cols r c)) table
  && negb (existsb (fun r => is_str (cell cols r c)) table).

(** Row [r] with the integers of the float64 columns of [table] made
    floats. *)
Definition upcast_row (cols : list string) (table : list (list scalar))
    (r : list scalar) : list scalar :=
  map (fun c => if floating cols table c then to_float (cell cols r c) else cell cols r c)
      cols.

(** [pd.concat(objs, ignore_index=True, sort=True)] on tables: an empty
    list is refused ("No objects to concatenate"); the columns of the
    result are the sorted union of the inputs' columns, the rows are the
    inputs' rows in order, re-laid along these columns, and an integer
    column that receives a null or meets floats becomes a float64 column.
    Tables whose labels repeat cannot be re-laid ([pd.read_csv] never
    yields one). *)
Definition pd_concat (objs : list DataFrame) : result DataFrame :=
  match objs with
  | [] => Raise ValueError
  | _ =>
      if existsb (fun df => has_duplicates (columns df)) objs
      then Raise InvalidIndexError
      else
        let cols :=
          sort_labels (fold_left (fun acc df => add_labels acc (columns df)) objs []) in
        let table :=
          flat_map (fun df => map (reindex_row (columns df) cols) (rows df)) objs in
        Ok {| columns := cols; rows := map (upcast_row cols table) table |}
  end.

(** Exact comparison of a float with an integer. *)
Definition float_eq_int (f : spec_float) (z : Z) : bool :=
  match f with
  | S754_zero _ => z =? 0
  | S754_finite s m e =>
      let v := if s then Z.neg m else Z.pos m in
      if 0 <=? e then v * 2 ^ e =? z else v =? z * 2 ^ (- e)
  | S754_infinity _ | S754_nan => false
  end.

Definition float_eq (f g : spec_float) : bool :=
  match f, g with
  | S754_zero _, S754_zero _ => true
  | S754_infinity s, S754_infinity s' => Bool.eqb s s'
  | S754_finite s m e, S754_finite s' m' e' =>
      Bool.eqb s s' && (Z.pos m * 2 ^ (e - Z.min e e') =? Z.pos m' * 2 ^ (e' - Z.min e e'))
  | _, _ => false
  end.

(** Join keys: equal numbers match, equal strings match, two nulls match. *)
Definition key_eq (x y : scalar) : bool :=
  match x, y with
  | Str s, Str t => String.eqb s t
  | Int a, Int b => a =? b
  | Int a, Float f | Float f, Int a => float_eq_int f a
  | Float S754_nan, Float S754_nan => true
  | Float f, Float g => float_eq f g
  | _, _ => false
  end.

(** What a caller may pass where [pd.merge] expects a table. *)
Inductive operand : Type :=
| Frame (df : DataFrame)
| PyList (l : list DataFrame).

Definition validate_operand (obj : operand) : result DataFrame :=
  match obj with
  | Frame df => Ok df
  | PyList _ => Raise TypeError
  end.

Definition suffixed (other : list string) (suffix : string) (c : string) : string :=
  if existsb (String.eqb c) other then c +:+ suffix else c.

(** [pd.merge(left, right, left_on=.., right_on=..)]: both operands must be
    tables ("Can only merge Series or DataFrame objects"), both key
    columns must exist; the result is the inner join in the order of the
    left keys, labels shared by both sides getting [_x] / [_y]. *)
Definition pd_merge (left right : operand) (left_on right_on : string)
  : result DataFrame :=
  l ← validate_operand left;
  r ← validate_operand right;
  if negb (existsb (String.eqb right_on) (columns r)) then Raise (KeyError right_on)
  else if negb (existsb (String.eqb left_on) (columns l)) then Raise (KeyError left_on)
  else
    Ok {| columns := (map (suffixed (columns r) "_x") (columns l)
                      ++ map (suffixed (columns l) "_y") (columns r))%list;
          rows := flat_map (fun lr =>
                    map (fun rr => (lr ++ rr)%list)
                        (List.filter (fun rr => key_eq (cell (columns l) lr left_on)
                                                       (cell (columns r) rr right_on))
                                     (rows r)))
                    (rows l) |}.

(** Lines 88-99.  The join at line 97 is handed [gaiamatch], the list of
    loaded tables, and not [gaia_merged].  (The statements are laid out
    one column to the left of the docstring; they are read here as the
    body of the function.) *)
Definition crossmatch_gaia (w : world) (tess_info : DataFrame)
    (gaia_files : list string) : result DataFrame :=
  gaiamatch ← for_each (read_csv w) gaia_files;
  gaia_merged ← pd_concat gaiamatch;
  tess_gaia ← pd_merge (Frame tess_info) (PyList gaiamatch) "tess_id" "ticid";
  Ok tess_gaia.

(** ** Observation reader: [read_tess_lightcurve] *)

(** Evaluation of a name that is not local to the function. *)
Definition lookup_name (w : world) (name : string) : result value :=
  match globals w !! name with
  | Some v => Ok v
  | None => Raise (NameError name)
  end.

(** [fits.open(file)]: a path is opened; what is no path is refused. *)
Definition fits_open (w : world) (file : value) : result (list HDU) :=
  match file with
  | Scalar (Str path) =>
      match fits_files w !! path with
      | Some hdulist => Ok hdulist
      | None => Raise (read_error w path)
      end
  | _ => Raise OSError
  end.

(** [hdulist[i].header[key]]. *)
Definition header_card (hdulist : list HDU) (i : Z) (key : string) : result scalar :=
  hdu ← getitem hdulist i;
  match header hdu !! key with
  | Some v => Ok v
  | None => Raise (KeyError key)
  end.

(** Position of the field a key denotes: the first field with exactly
    the name [key.rstrip()]; failing that, the only field whose name is the
    key up to case and trailing whitespace.  No such field, or several,
    is a [KeyError]. *)
Definition field_index (names : list string) (key : string) : result nat :=
  match column_index names (str_rstrip key) with
  | Some j => Ok j
  | None =>
      let _key := str_rstrip (lower key) in
      let names := map (fun n => str_rstrip (lower n)) names in
      match count_occ string_dec names _key with
      | 1%nat =>
          match column_index names _key with
          | Some j => Ok j
          | None => Raise (KeyError key)
          end
      | _ => Raise (KeyError key)
      end
  end.

(** [hdulist[i].data.field(name)]. *)
Definition data_field (hdulist : list HDU) (i : Z) (name : string)
  : result (list scalar) :=
  hdu ← getitem hdulist i;
  match data hdu with
  | None => Raise AttributeError
  | Some t =>
      j ← field_index (names t) name;
      Ok (map (fun r => nth j r NaN) (records t))
  end.

(** The type of the array [hdulist[i].data.field(name)]; an array keeps
    it when it is sliced. *)
Definition data_dtype (hdulist : list HDU) (i : Z) (name : string) : dtype :=
  match getitem hdulist i with
  | Ok hdu =>
      match data hdu with
      | Some t =>
          match field_index (names t) name with
          | Ok j => nth j (formats t) numeric
          | Raise _ => numeric
          end
      | None => numeric
      end
  | Raise _ => numeric
  end.

(** [a[1:]]. *)
Definition slice_from_1 {A} (a : list A) : list A := drop 1 a.

Definition isfinite (x : spec_float) : bool :=
  match x with
  | S754_zero _ | S754_finite _ _ _ => true
  | S754_infinity _ | S754_nan => false
  end.

(** [np.isfinite(a)] for an array of type [t]: defined on numeric arrays
    only, whatever their length. *)
Definition np_isfinite (t : dtype) (a : list scalar) : result (list bool) :=
  match t with
  | text => Raise TypeError
  | numeric =>
      for_each (fun x =>
        match x with
        | Float f => Ok (isfinite f)
        | Int _ => Ok true
        | Str _ => Raise TypeError
        end) a
  end.

(** One element of [a == q] for an integer [q]. *)
Definition equals_int (q : Z) (x : scalar) : bool :=
  match x with
  | Int z => z =? q
  | Float f => float_eq_int f q
  | Str _ => false
  end.

(** [a == q]. *)
Definition np_equal (a : list scalar) (q : Z) : list bool := map (equals_int q) a.

(** [m1 & m2] on boolean arrays of one length. *)
Definition np_and (m1 m2 : list bool) : list bool := zip_with andb m1 m2.

(** [a[mask]] for a boolean array [mask] as long as [a]. *)
Fixpoint take_mask {A} (a : list A) (mask : list bool) : list A :=
  match a, mask with
  | x :: a', b :: mask' => if b then x :: take_mask a' mask' else take_mask a' mask'
  | _, _ => []
  end.

(** Lines 122-166.  The file that is opened is the one the name [fname]
    denotes; [fname] is not a parameter and is not assigned in the
    function.  [flux_key] and [flux_err_key] are computed from [pdc] and
    the fields read at lines 154-155 are string literals.  All fields come
    from one [FITS_rec], hence have one length, and neither [&] nor the
    boolean indexing can meet a shape mismatch. *)
Definition read_tess_lightcurve (w : world) (filename : string) (pdc : bool)
    (quality_flag : Z) : result (gmap string value) :=
  fname ← lookup_name w "fname";
  hdulist ← fits_open w fname;
  let data : gmap string value := ∅ in
  v ← header_card hdulist 0 "TSTART";   let data := <["tstart" := Scalar v]> data in
  v ← header_card hdulist 0 "TSTOP";    let data := <["tstop" := Scalar v]> data in
  v ← header_card hdulist 0 "DATE-OBS"; let data := <["date_obs" := Scalar v]> data in
  v ← header_card hdulist 0 "DATE-END"; let data := <["date_end" := Scalar v]> data in
  v ← header_card hdulist 0 "TICID";    let data := <["ticid" := Scalar v]> data in
  v ← header_card hdulist 0 "RA_OBJ";   let data := <["ra" := Scalar v]> data in
  v ← header_card hdulist 0 "DEC_OBJ";  let data := <["dec" := Scalar v]> data in
  v ← header_card hdulist 0 "PMRA";     let data := <["pmra" := Scalar v]> data in
  v ← header_card hdulist 0 "PMDEC";    let data := <["pmdec" := Scalar v]> data in
  v ← header_card hdulist 0 "PMTOTAL";  let data := <["pmtotal" := Scalar v]> data in
  v ← header_card hdulist 0 "TESSMAG";  let data := <["tessmag" := Scalar v]> data in
  v ← header_card hdulist 0 "TEFF";     let data := <["teff" := Scalar v]> data in
  v ← header_card hdulist 0 "LOGG";     let data := <["log_g" := Scalar v]> data in
  v ← header_card hdulist 0 "MH";       let data := <["mh" := Scalar v]> data in
  v ← header_card hdulist 0 "RADIUS";   let data := <["radius" := Scalar v]> data in
  let flux_key := "SAP_FLUX" in
  let flux_err_key := "SAP_FLUX_ERR" in
  let flux_key := if pdc then "PDC" +:+ flux_key else flux_key in
  let flux_err_key := if pdc then "PDC" +:+ flux_err_key else flux_err_key in
  time ← slice_from_1 <$> data_field hdulist 1 "TIME";
  flux ← slice_from_1 <$> data_field hdulist 1 "PDCSAP_FLUX";
  flux_err ← slice_from_1 <$> data_field hdulist 1 "PDCSAP_FLUX_ERR";
  quality ← slice_from_1 <$> data_field hdulist 1 "QUALITY";
  finite ← np_isfinite (data_dtype hdulist 1 "PDCSAP_FLUX") flux;
  let mask := np_and (np_equal quality quality_flag) finite in
  let data := <["time" := Array (take_mask time mask)]> data in
  let data := <["flux" := Array (take_mask flux mask)]> data in
  let data := <["flux_err" := Array (take_mask flux_err mask)]> data in
  Ok data.

(** ** Vocabulary of the statements *)

(** [sep.join(toks)]. *)
Fixpoint join (sep : ascii) (toks : list string) : string :=
  match toks with
  | [] => EmptyString
  | [tok] => tok
  | tok :: toks' => tok +:+ String sep (join sep toks')
  end.

(** [c in s]. *)
Fixpoint contains (c : ascii) (s : string) : bool :=
  match s with
  | EmptyString => false
  | String c' s' => Ascii.eqb c' c || contains c s'
  end.

(** Every token is free of the separator. *)
Definition tokens (sep : ascii) (toks : list string) : Prop :=
  Forall (fun tok => contains sep tok = false) toks.

(** The catalog row of a well-formed file, as the data model lists it. *)
Definition catalog_row (subdir filename d s : string) (id : Z) (c : string)
  : dict scalar :=
  [("subdir", Str subdir); ("filename", Str filename); ("daterange", Str d);
   ("sector_no", Str s); ("tess_id", Int id); ("cadence", Str c)].

Definition catalog_columns : list string :=
  ["subdir"; "filename"; "daterange"; "sector_no"; "tess_id"; "cadence"].

(** [np.isfinite] on one element of a numeric array. *)
Definition finite_scalar (x : scalar) : bool :=
  match x with
  | Float f => isfinite f
  | Int _ => true
  | Str _ => false
  end.

(** The validity filter in words: the indices [i], from 1 on and in
    increasing order, at which the quality equals the flag and the flux is
    finite. *)
Definition kept_indices (quality_flag : Z) (quality flux : list scalar) : list nat :=
  List.filter
    (fun i => equals_int quality_flag (nth i quality NaN) && finite_scalar (nth i flux NaN))
    (seq 1 (length flux - 1)).

(** The samples of [a] at the indices [idx], in the order of [idx]. *)
Definition select (a : list scalar) (idx : list nat) : list scalar :=
  map (fun i => nth i a NaN) idx.

(** The keys of the record the reader returns. *)
Definition record_keys : list string :=
  ["tstart"; "tstop"; "date_obs"; "date_end"; "ticid"; "ra"; "dec"; "pmra";
   "pmdec"; "pmtotal"; "tessmag"; "teff"; "log_g"; "mh"; "radius";
   "time"; "flux"; "flux_err"].

(** Header card and key of the record it is stored under. *)
Definition header_fields : list (string * string) :=
  [("TSTART", "tstart"); ("TSTOP", "tstop"); ("DATE-OBS", "date_obs");
   ("DATE-END", "date_end"); ("TICID", "ticid"); ("RA_OBJ", "ra");
   ("DEC_OBJ", "dec"); ("PMRA", "pmra"); ("PMDEC", "pmdec");
   ("PMTOTAL", "pmtotal"); ("TESSMAG", "tessmag"); ("TEFF", "teff");
   ("LOGG", "log_g"); ("MH", "mh"); ("RADIUS", "radius")].

(** ** Example inputs *)

Module Examples.

(** Catalog [tess_id = 1, 2, 3] and reference table [ticid = 2, 3, 4]. *)
Definition catalog : DataFrame :=
  {| columns := ["tess_id"]; rows := [[Int 1]; [Int 2]; [Int 3]] |}.

Definition reference : DataFrame :=
  {| columns := ["ticid"]; rows := [[Int 2]; [Int 3]; [Int 4]] |}.

Definition empty_catalog : DataFrame := {| columns := []; rows := [] |}.

(** Two reference tables with different columns. *)
Definition gaia_a : DataFrame :=
  {| columns := ["ticid"; "ra"]; rows := [[Int 2; Int 10]; [Int 3; Int 11]] |}.

Definition gaia_b : DataFrame :=
  {| columns := ["dec"; "ticid"]; rows := [[Int 7; Int 4]] |}.

(** The float of integer value [m]. *)
Definition fl (m : positive) : scalar := Float (S754_finite false m 0).

Definition primary_header : gmap string scalar :=
  list_to_map
    [("TSTART", fl 1325); ("TSTOP", fl 1353); ("DATE-OBS", Str "2018-07-25");
     ("DATE-END", Str "2018-08-22"); ("TICID", Int 123456789);
     ("RA_OBJ", fl 83); ("DEC_OBJ", fl 5); ("PMRA", fl 2); ("PMDEC", fl 3);
     ("PMTOTAL", fl 4); ("TESSMAG", fl 9); ("TEFF", fl 5700);
     ("LOGG", fl 4); ("MH", fl 1); ("RADIUS", fl 1)].

Definition field_names : list string :=
  ["TIME"; "SAP_FLUX"; "SAP_FLUX_ERR"; "PDCSAP_FLUX"; "PDCSAP_FLUX_ERR"; "QUALITY"].

Definition field_formats : list dtype :=
  [numeric; numeric; numeric; numeric; numeric; numeric].

(** Five samples: a leading null sample; a good sample whose corrected
    flux error is null; a sample of bad quality; a sample whose corrected
    flux is infinite; a good sample. *)
Definition light_curve : FITS_rec :=
  {| names := field_names;
     formats := field_formats;
     records :=
       [[fl 100; NaN; NaN; NaN; NaN; Int 0];
        [fl 101; fl 11; fl 1; fl 21; NaN; Int 0];
        [fl 102; fl 12; fl 1; fl 22; fl 2; Int 8];
        [fl 103; fl 13; fl 1; Float (S754_infinity false); fl 2; Int 0];
        [fl 104; fl 14; fl 1; fl 24; fl 2; Int 0]] |}.

Definition hdulist : list HDU :=
  [{| header := primary_header; data := None |};
   {| header := ∅; data := Some light_curve |}].

(** The same file with a table that has no record. *)
Definition empty_hdulist : list HDU :=
  [{| header := primary_header; data := None |};
   {| header := ∅; data := Some {| names := field_names; formats := field_formats;
                                    records := [] |} |}].

Definition files : gmap string (list HDU) :=
  {[ "lc.fits" := hdulist; "empty.fits" := empty_hdulist ]}.

(** A session in which nothing is bound at module level. *)
Definition session : world :=
  {| glob_glob := fun _ => [];
     csv_files := {[ "gaia.csv" := reference ]};
     fits_files := files;
     io_errors := ∅;
     globals := ∅ |}.

(** A session in which [fname] is bound to [path]. *)
Definition session_with_fname (path : string) : world :=
  {| glob_glob := fun _ => [];
     csv_files := {[ "gaia.csv" := reference ]};
     fits_files := files;
     io_errors := ∅;
     globals := {[ "fname" := Scalar (Str path) ]} |}.

End Examples.

(** ** Further vocabulary and inputs *)

(** The cells of a decoded dict, along the catalog columns. *)
Definition row_cells (d : dict scalar) : list scalar :=
  map (fun k => default NaN (dict_get d k)) catalog_columns.

(** The first header card, in the order the reader asks for them, that a
    header lacks. *)
Definition first_missing_card (h : gmap string scalar) : option string :=
  List.find (fun card => match h !! card with None => true | Some _ => false end)
            (map fst header_fields).

(** The fields the reader takes from the table, in the order it asks. *)
Definition read_fields : list string :=
  ["TIME"; "PDCSAP_FLUX"; "PDCSAP_FLUX_ERR"; "QUALITY"].

Definition first_missing_field (t : FITS_rec) : option string :=
  List.find (fun name => match field_index (names t) name with
                         | Raise _ => true
                         | Ok _ => false
                         end) read_fields.


Module MoreExamples.

(** A directory with two light curves. *)
Definition archive : world :=
  {| glob_glob := fun _ =>
       ["data/batch1/0100-S01-123456789-fast.fits";
        "data/batch1/0100-S01-987654321-fast.fits"];
     csv_files := {[ "gaia.csv" := Examples.reference ]};
     fits_files := Examples.files;
     io_errors := ∅;
     globals := ∅ |}.

(** The same directory with a file that is no light curve in between. *)
Definition archive_with_stray : world :=
  {| glob_glob := fun _ =>
       ["data/batch1/0100-S01-123456789-fast.fits";
        "data/batch1/notes.fits";
        "data/batch1/0100-S01-x-fast.fits"];
     csv_files := {[ "gaia.csv" := Examples.reference ]};
     fits_files := Examples.files;
     io_errors := ∅;
     globals := ∅ |}.

(** A primary header without the [TEFF] and [RADIUS] cards. *)
Definition short_header : gmap string scalar :=
  delete "RADIUS" (delete "TEFF" Examples.primary_header).

(** A light curve in which every sample after the first is good. *)
Definition clean_curve : FITS_rec :=
  {| names := Examples.field_names;
     formats := Examples.field_formats;
     records :=
       [[Examples.fl 100; NaN; NaN; NaN; NaN; Int 0];
        [Examples.fl 101; Examples.fl 11; Examples.fl 1; Examples.fl 21; Examples.fl 2; Int 0];
        [Examples.fl 102; Examples.fl 12; Examples.fl 1; Examples.fl 22; Examples.fl 2; Int 0]] |}.

(** A table without the [QUALITY] field. *)
Definition no_quality : FITS_rec :=
  {| names := ["TIME"; "PDCSAP_FLUX"; "PDCSAP_FLUX_ERR"];
     formats := [numeric; numeric; numeric];
     records := [[Examples.fl 100; NaN; NaN]] |}.

(** A table whose fields are named in lower case. *)
Definition lower_case_curve : FITS_rec :=
  {| names := ["time"; "pdcsap_flux"; "pdcsap_flux_err"; "quality"];
     formats := [numeric; numeric; numeric; numeric];
     records :=
       [[Examples.fl 100; NaN; NaN; Int 0];
        [Examples.fl 101; Examples.fl 21; Examples.fl 2; Int 0]] |}.

(** A table with two fields named [TIME] up to case, none exactly. *)
Definition ambiguous_curve : FITS_rec :=
  {| names := ["Time"; "time"; "PDCSAP_FLUX"; "PDCSAP_FLUX_ERR"; "QUALITY"];
     formats := [numeric; numeric; numeric; numeric; numeric];
     records := [[Examples.fl 100; Examples.fl 100; NaN; NaN; Int 0]] |}.

(** A one-record table whose flux field is a character string field. *)
Definition text_flux_curve : FITS_rec :=
  {| names := ["TIME"; "PDCSAP_FLUX"; "PDCSAP_FLUX_ERR"; "QUALITY"];
     formats := [numeric; text; numeric; numeric];
     records := [[Examples.fl 100; Str "n/a"; NaN; Int 0]] |}.

Definition primary : HDU := {| header := Examples.primary_header; data := None |}.

Definition files : gmap string (list HDU) :=
  {[ "short_header.fits" :=
       [{| header := short_header; data := None |};
        {| header := ∅; data := Some Examples.light_curve |}];
     "primary_only.fits" := [primary];
     "image.fits" := [primary; {| header := ∅; data := None |}];
     "no_quality.fits" := [primary; {| header := ∅; data := Some no_quality |}];
     "lower_case.fits" := [primary; {| header := ∅; data := Some lower_case_curve |}];
     "ambiguous.fits" := [primary; {| header := ∅; data := Some ambiguous_curve |}];
     "text_flux.fits" := [primary; {| header := ∅; data := Some text_flux_curve |}];
     "clean.fits" := [primary; {| header := ∅; data := Some clean_curve |}] ]}.

(** A session in which [fname] is bound to [path], over these files. *)
Definition session_with_fname (path : string) : world :=
  {| glob_glob := fun _ => [];
     csv_files := {[ "gaia.csv" := Examples.reference ]};
     fits_files := files;
     io_errors := ∅;
     globals := {[ "fname" := Scalar (Str path) ]} |}.

(** A working directory that holds one light curve, listed from the empty
    root. *)
Definition working_directory : world :=
  {| glob_glob := fun _ => ["0100-S01-123456789-fast.fits"];
     csv_files := ∅;
     fits_files := ∅;
     io_errors := ∅;
     globals := ∅ |}.

(** A session with a reference file that exists and holds nothing. *)
Definition session_with_empty_csv : world :=
  {| glob_glob := fun _ => [];
     csv_files := {[ "gaia.csv" := Examples.reference ]};
     fits_files := files;
     io_errors := {[ "empty.csv" := EmptyDataError ]};
     globals := ∅ |}.

End MoreExamples.

(** ** Fallible computations: inversion and loops *)

Lemma bind_ok_inv {A B} (m : result A) (k : A -> result B) (b : B) :
  (x ← m; k x) = Ok b -> exists a, m = Ok a /\ k a = Ok b.
Proof. destruct m as [a|e]; [intros H; exists a; auto | discriminate]. Qed.

Lemma fmap_ok_inv {A B} (f : A -> B) (m : result A) (b : B) :
  f <$> m = Ok b -> exists a, m = Ok a /\ b = f a.
Proof.
  destruct m as [a|e]; [|discriminate].
  intros H; exists a; split; [reflexivity|]. now inversion H.
Qed.

Lemma for_each_ok_lookup {A B} (body : A -> result B) (l : list A) (out : list B) :
  for_each body l = Ok out ->
  forall (i : nat) (x : A), l !! i = Some x ->
    exists y, body x = Ok y /\ out !! i = Some y.
Proof.
  revert out; induction l as [|a l IH]; intros out H i x Hi.
  - destruct i; discriminate.
  - cbn [for_each] in H.
    apply bind_ok_inv in H as (y & Ey & H).
    apply bind_ok_inv in H as (ys & Eys & H).
    inversion H; subst out; clear H.
    destruct i as [|i]; cbn in Hi.
    + inversion Hi; subst; eauto.
    + destruct (IH ys Eys i x Hi) as (y' & ? & ?); eauto.
Qed.

Lemma for_each_ok_Forall2 {A B} (body : A -> result B) (l : list A) (out : list B) :
  for_each body l = Ok out -> Forall2 (fun x y => body x = Ok y) l out.
Proof.
  revert out; induction l as [|a l IH]; intros out H; cbn [for_each] in H.
  - inversion H; constructor.
  - apply bind_ok_inv in H as (y & Ey & H).
    apply bind_ok_inv in H as (ys & Eys & H).
    inversion H; subst; constructor; auto.
Qed.

Lemma for_each_raise {A B} (body : A -> result B) (l : list A) (x : A) (e : exception) :
  In x l -> body x = Raise e -> exists e', for_each body l = Raise e'.
Proof.
  induction l as [|a l IH]; intros Hin Hx; [destruct Hin|].
  cbn [for_each]. destruct (body a) as [y|e0] eqn:Ea; [|eauto].
  destruct Hin as [->|Hin]; [congruence|].
  destruct (IH Hin Hx) as (e' & ->). eauto.
Qed.

(** ** Indexing *)

Lemma getitem_nat {A} (l : list A) (i : nat) (x : A) :
  nth_error l i = Some x -> getitem l (Z.of_nat i) = Ok x.
Proof.
  intros H. unfold getitem.
  assert (Hlt : (i < length l)%nat) by (apply nth_error_Some; congruence).
  destruct (Z.ltb_spec (Z.of_nat i) 0); [lia|].
  destruct (Z.ltb_spec (Z.of_nat i) 0); [lia|].
  destruct (Z.leb_spec (Z.of_nat (length l)) (Z.of_nat i)); [lia|].
  cbn. now rewrite Nat2Z.id, H.
Qed.

Lemma getitem_short {A} (l : list A) (i : nat) :
  (length l <= i)%nat -> getitem l (Z.of_nat i) = Raise IndexError.
Proof.
  intros H. unfold getitem.
  destruct (Z.ltb_spec (Z.of_nat i) 0); [lia|].
  destruct (Z.ltb_spec (Z.of_nat i) 0); [lia|].
  destruct (Z.leb_spec (Z.of_nat (length l)) (Z.of_nat i)); [reflexivity|lia].
Qed.

Lemma getitem_from_end {A} (l : list A) (k : nat) (x : A) :
  (0 < k <= length l)%nat ->
  nth_error l (length l - k) = Some x ->
  getitem l (- Z.of_nat k) = Ok x.
Proof.
  intros Hk H. unfold getitem.
  destruct (Z.ltb_spec (- Z.of_nat k) 0); [|lia].
  destruct (Z.ltb_spec (- Z.of_nat k + Z.of_nat (length l)) 0); [lia|].
  destruct (Z.leb_spec (Z.of_nat (length l)) (- Z.of_nat k + Z.of_nat (length l))); [lia|].
  cbn.
  replace (Z.to_nat (- Z.of_nat k + Z.of_nat (length l))) with (length l - k)%nat by lia.
  now rewrite H.
Qed.

Lemma getitem_last_two {A} (l : list A) (a b : A) :
  getitem (l ++ [a; b])%list (-2) = Ok a /\ getitem (l ++ [a; b])%list (-1) = Ok b.
Proof.
  split.
  - apply (getitem_from_end _ 2); rewrite length_app; cbn; [lia|].
    replace (length l + 2 - 2)%nat with (length l + 0)%nat by lia.
    now rewrite nth_error_app2, Nat.add_0_r, Nat.sub_diag by lia.
  - apply (getitem_from_end _ 1); rewrite length_app; cbn; [lia|].
    replace (length l + 2 - 1)%nat with (length l + 1)%nat by lia.
    rewrite nth_error_app2 by lia.
    now replace (length l + 1 - length l)%nat with 1%nat by lia.
Qed.

(** ** [split] undoes [join] *)

Lemma split_nonempty (sep : ascii) (s : string) : split sep s <> [].
Proof.
  destruct s as [|c s]; cbn; [discriminate|].
  destruct (Ascii.eqb c sep); [discriminate|].
  destruct (split sep s); discriminate.
Qed.

Lemma split_token (sep : ascii) (tok : string) :
  contains sep tok = false -> split sep tok = [tok].
Proof.
  induction tok as [|c tok IH]; simpl; [reflexivity|].
  intros H. apply orb_false_iff in H as [Hc Htok].
  rewrite Hc, (IH Htok). reflexivity.
Qed.

Lemma split_token_sep (sep : ascii) (tok rest : string) :
  contains sep tok = false ->
  split sep (tok +:+ String sep rest) = tok :: split sep rest.
Proof.
  induction tok as [|c tok IH]; simpl.
  - intros _. now rewrite Ascii.eqb_refl.
  - intros H. apply orb_false_iff in H as [Hc Htok].
    rewrite Hc, (IH Htok). reflexivity.
Qed.

Lemma split_join (sep : ascii) (toks : list string) :
  toks <> [] -> tokens sep toks -> split sep (join sep toks) = toks.
Proof.
  induction toks as [|tok toks IH]; [congruence|].
  intros _ H. inversion H as [|? ? Htok Htoks]; subst.
  destruct toks as [|tok' toks].
  - cbn. now apply split_token.
  - change (join sep (tok :: tok' :: toks))
      with (tok +:+ String sep (join sep (tok' :: toks))).
    rewrite split_token_sep by assumption.
    rewrite IH; [reflexivity|discriminate|assumption].
Qed.

Lemma join_split (sep : ascii) (s : string) :
  join sep (split sep s) = s.
Proof.
  induction s as [|c s IH]; [reflexivity|].
  cbn [split]. destruct (Ascii.eqb_spec c sep) as [->|Hne].
  - pose proof (split_nonempty sep s) as Hs.
    destruct (split sep s) as [|t ts] eqn:E; [congruence|].
    cbn [join]. cbn. now rewrite <- IH.
  - pose proof (split_nonempty sep s) as Hs.
    destruct (split sep s) as [|t ts] eqn:E; [congruence|].
    rewrite <- IH. destruct ts; reflexivity.
Qed.

(** ** Catalog builder *)

Section CatalogBuilder.

Lemma getitem_0 {A} (x : A) (l : list A) : getitem (x :: l) 0 = Ok x.
Proof. exact (getitem_nat (x :: l) 0 x eq_refl). Qed.

Lemma getitem_1 {A} (x y : A) (l : list A) : getitem (x :: y :: l) 1 = Ok y.
Proof. exact (getitem_nat (x :: y :: l) 1 y eq_refl). Qed.

Lemma getitem_2 {A} (x y z : A) (l : list A) : getitem (x :: y :: z :: l) 2 = Ok z.
Proof. exact (getitem_nat (x :: y :: z :: l) 2 z eq_refl). Qed.

Lemma getitem_3 {A} (x y z t : A) (l : list A) :
  getitem (x :: y :: z :: t :: l) 3 = Ok t.
Proof. exact (getitem_nat (x :: y :: z :: t :: l) 3 t eq_refl). Qed.

(** The loop body on a path whose last two components are [subdir] and
    [filename]: what remains is the decoding of the file name. *)
Lemma single_info_path (parents : list string) (subdir filename : string) :
  tokens "/" (parents ++ [subdir; filename])%list ->
  single_info (join "/" (parents ++ [subdir; filename])%list) =
    (let fname_split := split "-" filename in
     daterange ← getitem fname_split 0;
     sector_no ← getitem fname_split 1;
     tok ← getitem fname_split 2;
     tess_id ← np_int tok;
     cadence ← getitem fname_split 3;
     Ok (catalog_row subdir filename daterange sector_no tess_id cadence)).
Proof.
  intros Hpath. unfold single_info.
  rewrite split_join by (assumption || now destruct parents).
  destruct (getitem_last_two parents subdir filename) as [-> ->].
  reflexivity.
Qed.

Lemma single_info_keys (f : string) (d : dict scalar) :
  single_info f = Ok d -> dict_keys d = catalog_columns.
Proof.
  unfold single_info. intros H.
  repeat (apply bind_ok_inv in H as (? & _ & H)).
  inversion H. reflexivity.
Qed.

Lemma columns_of_records (recs : list (dict scalar)) :
  recs <> [] ->
  Forall (fun d => dict_keys d = catalog_columns) recs ->
  columns (DataFrame_of_records recs) = catalog_columns.
Proof.
  intros Hne Hkeys. cbn [DataFrame_of_records columns].
  destruct Hkeys as [|d recs Hd Hrecs]; [congruence|].
  cbn [fold_left]. rewrite Hd.
  change (add_labels [] catalog_columns) with catalog_columns.
  clear Hne Hd. induction Hrecs as [|d' recs' Hd' _ IH]; [reflexivity|].
  cbn [fold_left]. rewrite Hd'. exact IH.
Qed.

End CatalogBuilder.

(** ** What [int()] accepts *)

Section NotAnInteger.

(** A character that is neither whitespace, nor a digit, nor [_], [+], [-]. *)
Variable x : ascii.
Hypothesis x_not_space : is_space x = false.
Hypothesis x_not_digit : digit_val x = None.
Hypothesis x_not_underscore : Ascii.eqb x "_"%char = false.
Hypothesis x_not_plus : Ascii.eqb x "+"%char = false.
Hypothesis x_not_minus : Ascii.eqb x "-"%char = false.

Lemma parse_digits_chars (s : string) :
  forall acc prev z, parse_digits acc prev s = Some z -> contains x s = false.
Proof.
  induction s as [|c s IH]; intros acc prev z H; [reflexivity|].
  cbn [parse_digits] in H. cbn [contains].
  destruct (Ascii.eqb_spec c x) as [->|Hne].
  - rewrite x_not_underscore, x_not_digit in H. discriminate.
  - cbn [orb].
    destruct (Ascii.eqb c "_"%char).
    + destruct prev; [eauto|discriminate].
    + destruct (digit_val c); [eauto|discriminate].
Qed.

Lemma contains_lstrip (s : string) : contains x (lstrip s) = contains x s.
Proof.
  induction s as [|c s IH]; [reflexivity|].
  cbn [lstrip]. destruct (is_space c) eqn:Ec; [|reflexivity].
  cbn [contains]. destruct (Ascii.eqb_spec c x) as [->|_]; [congruence|exact IH].
Qed.

Lemma contains_rstrip (s : string) : contains x (rstrip s) = contains x s.
Proof.
  induction s as [|c s IH]; [reflexivity|].
  cbn [rstrip contains]. rewrite <- IH.
  destruct (rstrip s) as [|c' r]; [|reflexivity].
  destruct (is_space c) eqn:Ec; [|reflexivity].
  destruct (Ascii.eqb_spec c x) as [->|_]; [congruence|reflexivity].
Qed.

Lemma int_of_str_chars (s : string) (z : Z) :
  int_of_str s = Some z -> contains x s = false.
Proof.
  unfold int_of_str, strip. intros H.
  rewrite <- contains_lstrip, <- contains_rstrip.
  destruct (rstrip (lstrip s)) as [|c r]; [discriminate|].
  cbn [contains].
  destruct (Ascii.eqb_spec c "+"%char) as [->|_].
  { rewrite Ascii.eqb_sym, x_not_plus. eapply parse_digits_chars, H. }
  destruct (Ascii.eqb_spec c "-"%char) as [->|_].
  { rewrite Ascii.eqb_sym, x_not_minus.
    destruct (parse_digits 0 false r) eqn:E; [|discriminate].
    eapply parse_digits_chars, E. }
  apply (parse_digits_chars _ _ _ _ H).
Qed.

End NotAnInteger.

Lemma contains_app (c : ascii) (s t : string) :
  contains c (s +:+ t) = contains c s || contains c t.
Proof.
  induction s as [|c' s IH]; simpl; [reflexivity|].
  now rewrite IH, orb_assoc.
Qed.

(** A token that ends in [.fits] is not an integer. *)
Lemma int_of_str_fits (stem : string) : int_of_str (stem +:+ ".fits") = None.
Proof.
  destruct (int_of_str (stem +:+ ".fits")) as [z|] eqn:E; [|reflexivity].
  apply (int_of_str_chars "f"%char) in E; try reflexivity.
  rewrite contains_app in E. apply orb_false_iff in E as [_ E]. discriminate.
Qed.

(** The last token of a name carries every separator-free suffix of it. *)
Lemma last_token_suffix (sep : ascii) (suffix stem : string) :
  contains sep suffix = false ->
  exists pre, last (split sep (stem +:+ suffix)) = Some (pre +:+ suffix).
Proof.
  intros Hs. induction stem as [|c stem (pre & IH)]; simpl.
  - exists EmptyString. now rewrite split_token.
  - pose proof (split_nonempty sep (stem +:+ suffix)) as Hne.
    destruct (Ascii.eqb c sep).
    + exists pre. destruct (split sep (stem +:+ suffix)); [congruence|exact IH].
    + destruct (split sep (stem +:+ suffix)) as [|t [|t' ts]]; [congruence| |].
      * inversion IH; subst. now exists (String c pre).
      * now exists pre.
Qed.

(** ** Catalog builder: the claims *)

(** C6, as the code has it.  A discovered path [.../subdir/filename] (a
    path with a parent directory component) whose file name is
    [d-s-id-c...] (four hyphen-delimited tokens or more, [id] a decimal
    integer [z]) is decoded into the row
    [{subdir, filename, daterange: d, sector_no: s, tess_id: z, cadence: c}],
    [tess_id] an integer and the other fields strings; and when the build
    returns a table, that table has the six catalog columns and holds this
    row at the position of the path in the listing. *)
Theorem catalog_builder_decodes_well_formed_names
    (parents : list string) (subdir d s id c : string) (more : list string) (z : Z) :
  let filename := join "-" (d :: s :: id :: c :: more) in
  let f := join "/" (parents ++ [subdir; filename])%list in
  tokens "/" (parents ++ [subdir; filename])%list ->
  tokens "-" (d :: s :: id :: c :: more) ->
  int_of_str id = Some z ->
  single_info f = Ok (catalog_row subdir filename d s z c) /\
  forall (w : world) (datadir : string) (tess_info : DataFrame) (i : nat),
    read_tess_info w datadir = Ok tess_info ->
    glob_glob w (datadir +:+ "**/*.fits") !! i = Some f ->
    columns tess_info = catalog_columns /\
    rows tess_info !! i = Some [Str subdir; Str filename; Str d; Str s; Int z; Str c].
Proof.
  intros filename f Hpath Hname Hid.
  assert (Hrow : single_info f = Ok (catalog_row subdir filename d s z c)).
  { unfold f. rewrite single_info_path by assumption.
    unfold filename. rewrite split_join by (assumption || discriminate).
    cbv zeta. rewrite getitem_0, getitem_1, getitem_2, getitem_3.
    unfold np_int. cbn [mbind result_bind]. rewrite Hid. reflexivity. }
  split; [exact Hrow|].
  intros w datadir tess_info i Hbuild Hi.
  unfold read_tess_info in Hbuild.
  apply bind_ok_inv in Hbuild as (recs & Hloop & Htbl).
  inversion Htbl; subst tess_info; clear Htbl.
  destruct (for_each_ok_lookup _ _ _ Hloop i f Hi) as (row & Hrow' & Hrec).
  rewrite Hrow in Hrow'. inversion Hrow'; subst row; clear Hrow'.
  assert (Hcols : columns (DataFrame_of_records recs) = catalog_columns).
  { apply columns_of_records.
    - intros ->. discriminate.
    - apply for_each_ok_Forall2 in Hloop.
      clear -Hloop. induction Hloop; constructor; eauto using single_info_keys. }
  split; [exact Hcols|].
  change (rows (DataFrame_of_records recs))
    with (map (fun r => map (fun k => default NaN (dict_get r k))
                            (columns (DataFrame_of_records recs))) recs).
  rewrite Hcols.
  change (map ?g recs) with (g <$> recs).
  rewrite list_lookup_fmap, Hrec. reflexivity.
Qed.

Lemma catalog_builder_decodes_well_formed_names_witness :
  single_info "data/batch1/0100-S01-123456789-fast.fits" =
    Ok (catalog_row "batch1" "0100-S01-123456789-fast.fits"
          "0100" "S01" 123456789 "fast.fits").
Proof.
  refine (proj1 (catalog_builder_decodes_well_formed_names
                   ["data"] "batch1" "0100" "S01" "123456789" "fast.fits" []
                   123456789 _ _ _)).
  - repeat constructor.
  - repeat constructor.
  - reflexivity.
Defined.

(** C6 as stated fails on a discovered path without parent directory
    component: the file name is well formed (four tokens, the third an
    integer) and the loop body raises [IndexError] at [fsplit[-2]], so the
    build returns no row. *)
Lemma well_formed_name_without_directory_is_not_decoded :
  split "-" "0100-S01-123456789-fast.fits" = ["0100"; "S01"; "123456789"; "fast.fits"] /\
  int_of_str "123456789" = Some 123456789 /\
  single_info "0100-S01-123456789-fast.fits" = Raise IndexError /\
  glob_glob MoreExamples.working_directory ("" +:+ "**/*.fits")
    = ["0100-S01-123456789-fast.fits"] /\
  read_tess_info MoreExamples.working_directory "" = Raise IndexError.
Proof. repeat split. Qed.

(** C8, as the code has it.  For a discovered path [.../subdir/filename]:
    a name with fewer than three hyphen-delimited tokens raises
    [IndexError]; a name with three tokens or more whose third token is not
    a decimal integer raises [ValueError], the conversion coming before the
    fourth token is read, so a name with exactly three tokens that ends in
    [.fits] raises [ValueError].  A listing that holds a path on which the
    decoding raises makes the whole build raise: no table is returned. *)
Theorem catalog_builder_rejects_malformed_names
    (parents : list string) (subdir filename : string) :
  let f := join "/" (parents ++ [subdir; filename])%list in
  let toks := split "-" filename in
  tokens "/" (parents ++ [subdir; filename])%list ->
  ((length toks < 3)%nat -> single_info f = Raise IndexError) /\
  (forall tok, toks !! 2%nat = Some tok -> int_of_str tok = None ->
     single_info f = Raise ValueError) /\
  (forall stem, length toks = 3%nat -> filename = stem +:+ ".fits" ->
     single_info f = Raise ValueError) /\
  (forall (w : world) (datadir : string) (e : exception),
     In f (glob_glob w (datadir +:+ "**/*.fits")) -> single_info f = Raise e ->
     exists e', read_tess_info w datadir = Raise e').
Proof.
  intros f toks Hpath.
  assert (Hbody := single_info_path parents subdir filename Hpath).
  fold f in Hbody. cbv zeta in Hbody. fold toks in Hbody.
  assert (Hconv : forall tok, toks !! 2%nat = Some tok -> int_of_str tok = None ->
                    single_info f = Raise ValueError).
  { intros tok Htok Hint. rewrite Hbody.
    destruct toks as [|t0 [|t1 [|t2 ts]]]; try discriminate.
    inversion Htok; subst t2.
    rewrite getitem_0, getitem_1, getitem_2. unfold np_int.
    cbn [mbind result_bind]. now rewrite Hint. }
  repeat split.
  - intros Hlen. rewrite Hbody.
    destruct toks as [|t0 [|t1 [|t2 ts]]]; try reflexivity.
    cbn in Hlen. lia.
  - exact Hconv.
  - intros stem Hlen ->.
    destruct (last_token_suffix "-" ".fits" stem eq_refl) as (pre & Hlast).
    fold toks in Hlast.
    destruct toks as [|t0 [|t1 [|t2 [|t3 ts]]]]; try discriminate.
    cbn in Hlast. inversion Hlast; subst t2.
    apply (Hconv (pre +:+ ".fits")); [reflexivity|apply int_of_str_fits].
  - intros w datadir e Hin Hraise. unfold read_tess_info.
    destruct (for_each_raise single_info _ f e Hin Hraise) as (e' & ->).
    now exists e'.
Qed.

Lemma catalog_builder_rejects_malformed_names_witness :
  single_info "batch1/0100-S01.fits" = Raise IndexError /\
  single_info "batch1/0100-S01-x12-fast.fits" = Raise ValueError.
Proof.
  split.
  - refine (proj1 (catalog_builder_rejects_malformed_names
                     [] "batch1" "0100-S01.fits" _) _).
    + repeat constructor.
    + cbn. lia.
  - refine (proj1 (proj2 (catalog_builder_rejects_malformed_names
                     [] "batch1" "0100-S01-x12-fast.fits" _)) "x12" _ _).
    + repeat constructor.
    + reflexivity.
    + reflexivity.
Defined.

(** C8 as stated fails: a name with three tokens (fewer than four) does not
    raise [IndexError]; the conversion of its third token raises first. *)
Lemma three_token_name_raises_conversion_error :
  (length (split "-" "0100-S01-123.fits") < 4)%nat /\
  single_info "batch1/0100-S01-123.fits" = Raise ValueError /\
  single_info "batch1/0100-S01-123.fits" <> Raise IndexError.
Proof. repeat split; [cbn; lia | discriminate]. Qed.

(** C10.  When no path matches the pattern, the catalog builder returns
    the table without rows (and without columns); it does not raise. *)
Theorem catalog_builder_empty_listing (w : world) (datadir : string) :
  glob_glob w (datadir +:+ "**/*.fits") = [] ->
  read_tess_info w datadir = Ok {| columns := []; rows := [] |} /\
  forall tess_info, read_tess_info w datadir = Ok tess_info -> nrows tess_info = 0%nat.
Proof.
  intros Hglob. unfold read_tess_info. rewrite Hglob.
  split; [reflexivity|].
  intros tess_info H. inversion H. reflexivity.
Qed.

Lemma catalog_builder_empty_listing_witness :
  read_tess_info Examples.session "data/" = Ok {| columns := []; rows := [] |}.
Proof.
  exact (proj1 (catalog_builder_empty_listing Examples.session "data/" eq_refl)).
Defined.

(** ** Cross-match merger *)

Section CrossMatch.

Lemma In_add_labels (c : string) (l2 l1 : list string) :
  In c (add_labels l1 l2) <-> In c l1 \/ In c l2.
Proof.
  revert l1; induction l2 as [|c' l2 IH]; intros l1; cbn [add_labels].
  - cbn; tauto.
  - destruct (existsb (String.eqb c') l1) eqn:E; rewrite IH.
    + apply existsb_exists in E as (c'' & Hin & Heq).
      apply String.eqb_eq in Heq; subst c''.
      cbn; split; [tauto|]. intros [?|[->|?]]; auto.
    + rewrite in_app_iff; cbn; tauto.
Qed.

Lemma In_union_labels (c : string) (objs : list DataFrame) (acc : list string) :
  In c (fold_left (fun acc df => add_labels acc (columns df)) objs acc) <->
  In c acc \/ exists df, In df objs /\ In c (columns df).
Proof.
  revert acc; induction objs as [|df objs IH]; intros acc; cbn [fold_left].
  - split; [tauto|]. intros [?|(? & [] & _)]; assumption.
  - rewrite IH, In_add_labels. split.
    + intros [[?|?]|(df' & ? & ?)]; auto.
      * right; exists df; cbn; auto.
      * right; exists df'; cbn; auto.
    + intros [?|(df' & [->|?] & ?)]; auto. right; eauto.
Qed.

Lemma In_insert_sorted (c c' : string) (l : list string) :
  In c (insert_sorted c' l) <-> c' = c \/ In c l.
Proof.
  induction l as [|a l IH]; cbn [insert_sorted]; [cbn; tauto|].
  destruct (String.leb c' a); cbn [In]; [tauto|]. rewrite IH; tauto.
Qed.

Lemma In_sort_labels (c : string) (l : list string) :
  In c (sort_labels l) <-> In c l.
Proof.
  induction l as [|a l IH]; cbn [sort_labels fold_right]; [tauto|].
  rewrite In_insert_sorted. fold (sort_labels l). rewrite IH. cbn; tauto.
Qed.

Lemma column_index_In (cols : list string) (c : string) :
  In c cols -> exists i, column_index cols c = Some i /\ nth_error cols i = Some c.
Proof.
  induction cols as [|c' cols IH]; [intros []|].
  intros Hin. cbn [column_index].
  destruct (String.eqb_spec c' c) as [->|Hne].
  - exists O; auto.
  - destruct Hin as [?|Hin]; [congruence|].
    destruct (IH Hin) as (i & -> & Hi). exists (S i); auto.
Qed.

Lemma column_index_not_In (cols : list string) (c : string) :
  ~ In c cols -> column_index cols c = None.
Proof.
  induction cols as [|c' cols IH]; [reflexivity|].
  intros Hnin. cbn [column_index].
  destruct (String.eqb_spec c' c) as [->|Hne]; [exfalso; apply Hnin; now left|].
  rewrite IH; [reflexivity|]. intros ?; apply Hnin; now right.
Qed.

(** Re-laying a row keeps the cell under every label of the new layout. *)
Lemma cell_reindex_row (cols new_cols : list string) (r : list scalar) (c : string) :
  In c new_cols -> cell new_cols (reindex_row cols new_cols r) c = cell cols r c.
Proof.
  intros Hin. destruct (column_index_In _ _ Hin) as (i & Hi & Hnth).
  unfold cell at 1. rewrite Hi. unfold reindex_row.
  apply nth_error_nth. now rewrite nth_error_map, Hnth.
Qed.

(** A row has a null under every label its table lacks. *)
Lemma cell_absent (cols : list string) (r : list scalar) (c : string) :
  ~ In c cols -> cell cols r c = NaN.
Proof. intros H. unfold cell. now rewrite column_index_not_In. Qed.

Lemma existsb_eqb_false (c : string) (l : list string) :
  existsb (String.eqb c) l = false -> ~ In c l.
Proof.
  intros H Hin.
  assert (existsb (String.eqb c) l = true); [|congruence].
  apply existsb_exists. exists c. split; [exact Hin|apply String.eqb_refl].
Qed.

(** A row laid out along [cols] by a function of the label holds, under
    each label, the value of the function. *)
Lemma cell_map_cols (cols : list string) (g : string -> scalar) (c : string) :
  In c cols -> cell cols (map g cols) c = g c.
Proof.
  intros Hin. destruct (column_index_In _ _ Hin) as (i & Hi & Hnth).
  unfold cell. rewrite Hi.
  apply nth_error_nth. now rewrite nth_error_map, Hnth.
Qed.

Lemma concat_rows_pairs (cols : list string) (objs : list DataFrame) :
  flat_map (fun df => map (reindex_row (columns df) cols) (rows df)) objs =
  map (fun p => reindex_row (columns (fst p)) cols (snd p))
      (flat_map (fun df => map (pair df) (rows df)) objs).
Proof.
  induction objs as [|df objs IH]; [reflexivity|].
  cbn [flat_map]. rewrite map_app, map_map, IH. reflexivity.
Qed.

Lemma Forall2_map_right {A B} (P : A -> B -> Prop) (g : A -> B) (l : list A) :
  (forall a, P a (g a)) -> Forall2 P l (map g l).
Proof. intros H. induction l; cbn [map]; constructor; auto. Qed.

Lemma length_concat_rows (cols : list string) (objs : list DataFrame) :
  length (flat_map (fun df => map (reindex_row (columns df) cols) (rows df)) objs)
  = list_sum (map nrows objs).
Proof.
  induction objs as [|df objs IH]; [reflexivity|].
  cbn [flat_map map list_sum]. rewrite length_app, length_map, IH. reflexivity.
Qed.

Lemma crossmatch_gaia_raises (w : world) (tess_info : DataFrame)
    (gaia_files : list string) :
  exists e, crossmatch_gaia w tess_info gaia_files = Raise e.
Proof.
  unfold crossmatch_gaia.
  destruct (for_each (read_csv w) gaia_files) as [gaiamatch|e]; [|now exists e].
  cbn [mbind result_bind].
  destruct (pd_concat gaiamatch) as [gaia_merged|e]; [|now exists e].
  now exists TypeError.
Qed.

End CrossMatch.

(** C7, as the code has it.  For every non-empty list of tables, each with
    distinct column labels, the concatenation returns a table whose number
    of rows is the sum of the inputs' numbers of rows, whose column labels
    are exactly the labels of the inputs, and whose rows are the inputs'
    rows, in order: each holds a null under every label its table lacks
    and, under a label of its table, the cell of the input row, as it is or
    (an integer in a column that became a float column) as a float. *)
Theorem concat_rows_and_columns (objs : list DataFrame) :
  objs <> [] ->
  Forall (fun df => has_duplicates (columns df) = false) objs ->
  exists merged,
    pd_concat objs = Ok merged /\
    nrows merged = list_sum (map nrows objs) /\
    (forall c, In c (columns merged) <->
               exists df, In df objs /\ In c (columns df)) /\
    Forall2 (fun '(df, r) r' =>
               forall c, In c (columns merged) ->
                 if existsb (String.eqb c) (columns df)
                 then cell (columns merged) r' c = cell (columns df) r c \/
                      cell (columns merged) r' c = to_float (cell (columns df) r c)
                 else cell (columns merged) r' c = NaN)
            (flat_map (fun df => map (pair df) (rows df)) objs) (rows merged).
Proof.
  intros Hne Hdup.
  assert (Hchk : existsb (fun df => has_duplicates (columns df)) objs = false).
  { clear Hne. induction Hdup as [|df objs Hdf _ IH]; [reflexivity|].
    cbn [existsb]. now rewrite Hdf, IH. }
  eexists. split.
  { unfold pd_concat. destruct objs; [congruence|]. rewrite Hchk. reflexivity. }
  cbn [columns rows].
  set (cols := sort_labels (fold_left (fun acc df => add_labels acc (columns df)) objs [])).
  split; [|split].
  - unfold nrows; cbn [rows]. rewrite length_map. apply length_concat_rows.
  - intros c. unfold cols. rewrite In_sort_labels, In_union_labels.
    split; [intros [[]|H]; exact H|now right].
  - rewrite (concat_rows_pairs cols objs), map_map.
    apply Forall2_map_right. intros [df r] c Hc. cbn [fst snd].
    unfold upcast_row. rewrite cell_map_cols by exact Hc.
    rewrite cell_reindex_row by exact Hc.
    destruct (existsb (String.eqb c) (columns df)) eqn:E.
    + destruct (floating cols _ c); auto.
    + rewrite (cell_absent (columns df) r c) by now apply existsb_eqb_false.
      now destruct (floating cols _ c).
Qed.

Lemma concat_rows_and_columns_witness :
  exists merged,
    pd_concat [Examples.gaia_a; Examples.gaia_b] = Ok merged /\
    nrows merged = 3%nat /\
    columns merged = ["dec"; "ra"; "ticid"] /\
    rows merged = [[NaN; to_float (Int 10); Int 2];
                   [NaN; to_float (Int 11); Int 3];
                   [to_float (Int 7); NaN; Int 4]].
Proof.
  destruct (concat_rows_and_columns [Examples.gaia_a; Examples.gaia_b])
    as (merged & Hok & Hn & _ & _).
  - discriminate.
  - repeat constructor.
  - exists merged. split; [exact Hok|].
    vm_compute in Hok. inversion Hok; subst merged. repeat split.
Defined.

(** C7 as stated fails on the empty list of tables: the concatenation
    raises and produces no table. *)
Lemma concat_of_no_table_raises :
  pd_concat [] = Raise ValueError /\
  ~ exists merged, pd_concat [] = Ok merged /\ nrows merged = list_sum (map nrows []).
Proof. split; [reflexivity|]. intros (merged & H & _). discriminate. Qed.

(** C5, as the code has it.  With an empty list of reference files the
    merger raises: the concatenation of no table is refused, whatever the
    catalog. *)
Theorem crossmatch_without_reference_files_raises (w : world) (tess_info : DataFrame) :
  crossmatch_gaia w tess_info [] = Raise ValueError.
Proof. reflexivity. Qed.

(** C5 as stated fails: with an empty catalog and an empty list of
    reference files the merger returns no table. *)
Lemma crossmatch_of_nothing_is_not_empty_table :
  ~ exists tess_gaia,
      crossmatch_gaia Examples.session Examples.empty_catalog [] = Ok tess_gaia.
Proof. intros (tess_gaia & H). discriminate. Qed.

(** C2.  The join is handed the list of loaded tables instead of their
    concatenation, so the merger raises on every input; on the catalog
    [1, 2, 3] and the reference table [2, 3, 4] it raises [TypeError],
    where the join against the concatenation returns the rows of
    identifiers 2 and 3. *)
Theorem crossmatch_joins_the_list_of_tables :
  (forall w tess_info gaia_files,
      exists e, crossmatch_gaia w tess_info gaia_files = Raise e) /\
  crossmatch_gaia Examples.session Examples.catalog ["gaia.csv"] = Raise TypeError /\
  (gaia_merged ← pd_concat [Examples.reference];
   pd_merge (Frame Examples.catalog) (Frame gaia_merged) "tess_id" "ticid")
  = Ok {| columns := ["tess_id"; "ticid"]; rows := [[Int 2; Int 2]; [Int 3; Int 3]] |}.
Proof.
  split; [exact crossmatch_gaia_raises|].
  split; vm_compute; reflexivity.
Qed.

(** ** Observation reader *)

Section ObservationReader.

Lemma np_isfinite_cons (t : dtype) (x : scalar) (a : list scalar)
    (finite : list bool) :
  np_isfinite t (x :: a) = Ok finite ->
  exists finite', finite = finite_scalar x :: finite' /\ np_isfinite t a = Ok finite'.
Proof.
  destruct t; [|discriminate].
  unfold np_isfinite; cbn [for_each]. intros H.
  apply bind_ok_inv in H as (b & Hb & H).
  apply bind_ok_inv in H as (bs & Hbs & H).
  inversion H; subst finite; clear H. exists bs. split; [|exact Hbs].
  destruct x; inversion Hb; reflexivity.
Qed.

Lemma np_isfinite_length (t : dtype) (a : list scalar) (finite : list bool) :
  np_isfinite t a = Ok finite -> length finite = length a.
Proof.
  revert finite; induction a as [|x a IH]; intros finite H.
  - destruct t; inversion H; reflexivity.
  - apply np_isfinite_cons in H as (finite' & -> & H). cbn. f_equal. auto.
Qed.

(** Boolean indexing with the mask of the reader, on series without
    their first sample, in terms of indices. *)
Lemma take_mask_indices (t : dtype) (q : Z) (a quality flux : list scalar)
    (finite : list bool) :
  length a = length flux -> length quality = length flux ->
  np_isfinite t flux = Ok finite ->
  take_mask a (np_and (np_equal quality q) finite) =
    map (fun i => nth i a NaN)
        (List.filter (fun i => equals_int q (nth i quality NaN)
                               && finite_scalar (nth i flux NaN))
                     (seq 0 (length flux))).
Proof.
  revert a quality finite; induction flux as [|z flux IH];
    intros a quality finite Ha Hq Hfin.
  - destruct a; [reflexivity|discriminate].
  - destruct a as [|x a]; [discriminate|].
    destruct quality as [|y quality]; [discriminate|].
    apply np_isfinite_cons in Hfin as (finite' & -> & Hfin).
    cbn [length seq List.filter nth np_equal map np_and zip_with take_mask].
    specialize (IH a quality finite' ltac:(cbn in Ha; lia) ltac:(cbn in Hq; lia) Hfin).
    unfold np_and, np_equal in IH. rewrite IH.
    rewrite <- seq_shift, filter_map_swap.
    destruct (equals_int q y && finite_scalar z);
      cbn [map nth]; rewrite map_map; reflexivity.
Qed.

Lemma take_mask_kept (t : dtype) (q : Z) (a quality flux : list scalar)
    (finite : list bool) :
  length a = length flux -> length quality = length flux ->
  np_isfinite t (slice_from_1 flux) = Ok finite ->
  take_mask (slice_from_1 a) (np_and (np_equal (slice_from_1 quality) q) finite)
  = select a (kept_indices q quality flux).
Proof.
  intros Ha Hq Hfin. unfold select, kept_indices.
  destruct flux as [|z flux].
  { destruct a; [reflexivity|discriminate]. }
  destruct a as [|x a]; [discriminate|].
  destruct quality as [|y quality]; [discriminate|].
  unfold slice_from_1 in *; cbn [drop] in *. rewrite drop_0 in Hfin. rewrite !drop_0.
  rewrite (take_mask_indices t q a quality flux finite)
    by (cbn in Ha, Hq; lia || assumption).
  cbn [length]. rewrite Nat.sub_succ, Nat.sub_0_r.
  rewrite <- seq_shift, filter_map_swap, map_map. reflexivity.
Qed.

Lemma kept_indices_spec (q : Z) (quality flux : list scalar) (i : nat) :
  In i (kept_indices q quality flux) <->
  (1 <= i < length flux)%nat /\
  equals_int q (nth i quality NaN) = true /\ finite_scalar (nth i flux NaN) = true.
Proof.
  unfold kept_indices. rewrite filter_In, in_seq, andb_true_iff.
  split; intros (? & ? & ?); repeat split; auto; lia.
Qed.

Lemma kept_indices_length (q : Z) (quality flux : list scalar) :
  (length (kept_indices q quality flux) <= length flux - 1)%nat.
Proof.
  unfold kept_indices.
  etransitivity; [apply List.filter_length_le|]. now rewrite length_seq.
Qed.

Lemma data_field_length (hdulist : list HDU) (i : Z) (n1 n2 : string)
    (a b : list scalar) :
  data_field hdulist i n1 = Ok a -> data_field hdulist i n2 = Ok b ->
  length a = length b.
Proof.
  unfold data_field. destruct (getitem hdulist i) as [hdu|]; [|discriminate].
  cbn [mbind result_bind].
  destruct (data hdu) as [t|]; [|discriminate].
  destruct (field_index (names t) n1); [|discriminate].
  destruct (field_index (names t) n2); [|discriminate].
  intros H1 H2. inversion H1; inversion H2. now rewrite !length_map.
Qed.

(** What a successful read has gone through. *)
Lemma read_tess_lightcurve_ok_inv (w : world) (filename : string) (pdc : bool)
    (q : Z) (d : gmap string value) :
  read_tess_lightcurve w filename pdc q = Ok d ->
  exists fname hdulist time flux flux_err quality,
    lookup_name w "fname" = Ok fname /\
    fits_open w fname = Ok hdulist /\
    data_field hdulist 1 "TIME" = Ok time /\
    data_field hdulist 1 "PDCSAP_FLUX" = Ok flux /\
    data_field hdulist 1 "PDCSAP_FLUX_ERR" = Ok flux_err /\
    data_field hdulist 1 "QUALITY" = Ok quality /\
    d !! "time" = Some (Array (select time (kept_indices q quality flux))) /\
    d !! "flux" = Some (Array (select flux (kept_indices q quality flux))) /\
    d !! "flux_err" = Some (Array (select flux_err (kept_indices q quality flux))).
Proof.
  unfold read_tess_lightcurve. intros H.
  apply bind_ok_inv in H as (fname & Hname & H).
  apply bind_ok_inv in H as (hdulist & Hopen & H).
  cbv zeta in H.
  do 15 (apply bind_ok_inv in H as (? & _ & H)).
  apply bind_ok_inv in H as (time' & Ht & H).
  apply bind_ok_inv in H as (flux' & Hf & H).
  apply bind_ok_inv in H as (flux_err' & He & H).
  apply bind_ok_inv in H as (quality' & Hq & H).
  apply bind_ok_inv in H as (finite & Hfin & H).
  apply fmap_ok_inv in Ht as (time & Ht & ->).
  apply fmap_ok_inv in Hf as (flux & Hf & ->).
  apply fmap_ok_inv in He as (flux_err & He & ->).
  apply fmap_ok_inv in Hq as (quality & Hq & ->).
  exists fname, hdulist, time, flux, flux_err, quality.
  repeat (split; [assumption|]).
  pose proof (data_field_length _ _ _ _ _ _ Ht Hf) as Ltime.
  pose proof (data_field_length _ _ _ _ _ _ He Hf) as Lerr.
  pose proof (data_field_length _ _ _ _ _ _ Hq Hf) as Lqual.
  rewrite <- (take_mask_kept _ q time quality flux finite Ltime Lqual Hfin).
  rewrite <- (take_mask_kept _ q flux quality flux finite eq_refl Lqual Hfin).
  rewrite <- (take_mask_kept _ q flux_err quality flux finite Lerr Lqual Hfin).
  inversion H; subst d; clear H.
  split; [|split]; reflexivity.
Qed.

Lemma seq_increasing (len start : nat) : StronglySorted lt (seq start len).
Proof.
  revert start; induction len as [|len IH]; intros start; cbn [seq]; constructor.
  - apply IH.
  - apply List.Forall_forall. intros i Hi. apply in_seq in Hi. lia.
Qed.

Lemma filter_increasing (f : nat -> bool) (l : list nat) :
  StronglySorted lt l -> StronglySorted lt (List.filter f l).
Proof.
  induction 1 as [|a l Hl IH Ha]; cbn [List.filter]; [constructor|].
  destruct (f a); [|exact IH]. constructor; [exact IH|].
  apply List.Forall_forall. intros i Hi. apply filter_In in Hi as [Hi _].
  revert i Hi. now apply List.Forall_forall.
Qed.

Lemma kept_indices_increasing (q : Z) (quality flux : list scalar) :
  StronglySorted lt (kept_indices q quality flux).
Proof. apply filter_increasing, seq_increasing. Qed.

Lemma select_finite (q : Z) (quality flux : list scalar) :
  Forall (fun x => finite_scalar x = true) (select flux (kept_indices q quality flux)).
Proof.
  apply List.Forall_forall. intros x Hx. unfold select in Hx.
  apply in_map_iff in Hx as (i & <- & Hi).
  now apply kept_indices_spec in Hi as (_ & _ & Hfin).
Qed.

(** The record of a successful read: its keys, and the header cards it
    copies. *)
Lemma read_tess_lightcurve_record (w : world) (filename : string) (pdc : bool)
    (q : Z) (d : gmap string value) :
  read_tess_lightcurve w filename pdc q = Ok d ->
  dom d = list_to_set record_keys /\
  exists fname hdulist,
    lookup_name w "fname" = Ok fname /\ fits_open w fname = Ok hdulist /\
    Forall (fun '(card, key) =>
              exists v, header_card hdulist 0 card = Ok v /\
                        d !! key = Some (Scalar v)) header_fields.
Proof.
  unfold read_tess_lightcurve. intros H.
  apply bind_ok_inv in H as (fname & Hname & H).
  apply bind_ok_inv in H as (hdulist & Hopen & H).
  cbv zeta in H.
  do 15 (apply bind_ok_inv in H as (? & ? & H)).
  do 5 (apply bind_ok_inv in H as (? & _ & H)).
  inversion H; subst d; clear H. split.
  - rewrite !dom_insert_L, dom_empty_L. unfold record_keys. cbn [list_to_set].
    set_solver.
  - exists fname, hdulist. repeat (split; [assumption|]).
    unfold header_fields.
    repeat (constructor; [eexists; split; [eassumption|reflexivity]|]).
    constructor.
Qed.

End ObservationReader.

(** C3, as the code has it.  A successful read has taken four series of
    one length from the opened file (time, flux, flux error, quality).
    With [kept] the indices, from 1 on, at which the quality equals the
    flag and the flux is finite, in increasing order, the record holds
    under [time], [flux] and [flux_err] the samples of the three series at
    the indices [kept]: index 0 is never kept, the three returned series
    have one length and are aligned, every returned flux is finite, and
    the returned length is at most the raw length minus one when the raw
    series are not empty; from empty raw series the returned series are
    empty. *)
Theorem reader_filters_samples (w : world) (filename : string) (pdc : bool)
    (quality_flag : Z) (d : gmap string value) :
  read_tess_lightcurve w filename pdc quality_flag = Ok d ->
  exists fname hdulist time flux flux_err quality,
    lookup_name w "fname" = Ok fname /\
    fits_open w fname = Ok hdulist /\
    data_field hdulist 1 "TIME" = Ok time /\
    data_field hdulist 1 "PDCSAP_FLUX" = Ok flux /\
    data_field hdulist 1 "PDCSAP_FLUX_ERR" = Ok flux_err /\
    data_field hdulist 1 "QUALITY" = Ok quality /\
    length time = length flux /\
    length flux_err = length flux /\
    length quality = length flux /\
    let kept := kept_indices quality_flag quality flux in
    (forall i, In i kept <->
       (1 <= i < length flux)%nat /\
       equals_int quality_flag (nth i quality NaN) = true /\
       finite_scalar (nth i flux NaN) = true) /\
    StronglySorted lt kept /\
    d !! "time" = Some (Array (select time kept)) /\
    d !! "flux" = Some (Array (select flux kept)) /\
    d !! "flux_err" = Some (Array (select flux_err kept)) /\
    length (select time kept) = length kept /\
    length (select flux kept) = length kept /\
    length (select flux_err kept) = length kept /\
    Forall (fun x => finite_scalar x = true) (select flux kept) /\
    (length flux <> 0%nat -> Z.of_nat (length kept) <= Z.of_nat (length flux) - 1) /\
    (length flux = 0%nat -> kept = []).
Proof.
  intros H.
  apply read_tess_lightcurve_ok_inv in H
    as (fname & hdulist & time & flux & flux_err & quality
        & Hname & Hopen & Ht & Hf & He & Hq & Dt & Df & De).
  exists fname, hdulist, time, flux, flux_err, quality.
  repeat (split; [assumption|]).
  split; [exact (data_field_length _ _ _ _ _ _ Ht Hf)|].
  split; [exact (data_field_length _ _ _ _ _ _ He Hf)|].
  split; [exact (data_field_length _ _ _ _ _ _ Hq Hf)|].
  cbv zeta.
  split; [apply kept_indices_spec|].
  split; [apply kept_indices_increasing|].
  repeat (split; [assumption|]).
  unfold select. rewrite !length_map.
  repeat (split; [reflexivity|]).
  split; [apply select_finite|].
  pose proof (kept_indices_length quality_flag quality flux) as Hlen.
  split.
  - intros Hne. lia.
  - intros Hz. rewrite Hz in Hlen.
    destruct (kept_indices quality_flag quality flux); [reflexivity|cbn in Hlen; lia].
Qed.

Lemma reader_filters_samples_witness :
  exists d,
    read_tess_lightcurve (Examples.session_with_fname "lc.fits") "lc.fits" true 0 = Ok d /\
    exists time flux quality,
      d !! "time" = Some (Array (select time (kept_indices 0 quality flux))) /\
      kept_indices 0 quality flux = [1%nat; 4%nat].
Proof.
  destruct (read_tess_lightcurve (Examples.session_with_fname "lc.fits") "lc.fits" true 0)
    as [d|e] eqn:Hread; [|vm_compute in Hread; discriminate Hread].
  exists d. split; [reflexivity|].
  destruct (reader_filters_samples _ _ _ _ _ Hread)
    as (fname & hdulist & time & flux & flux_err & quality
        & Hname & Hopen & Ht & Hf & He & Hq & _ & _ & _ & _ & _ & Dt & _).
  exists time, flux, quality. split; [exact Dt|].
  vm_compute in Hname. inversion Hname; subst fname.
  vm_compute in Hopen. inversion Hopen; subst hdulist.
  vm_compute in Hf. inversion Hf; subst flux.
  vm_compute in Hq. inversion Hq; subst quality.
  reflexivity.
Defined.

(** C3 as stated fails on a table without records: the raw series are
    empty, the read succeeds with empty series, and 0 is not at most
    0 - 1. *)
Lemma reader_on_empty_table :
  exists d,
    read_tess_lightcurve (Examples.session_with_fname "empty.fits") "empty.fits" true 0
      = Ok d /\
    data_field Examples.empty_hdulist 1 "TIME" = Ok [] /\
    d !! "time" = Some (Array []) /\
    ~ (Z.of_nat (length (@nil scalar)) <= Z.of_nat (length (@nil scalar)) - 1).
Proof.
  eexists. split; [vm_compute; reflexivity|].
  split; [reflexivity|]. split; [reflexivity|]. cbn. lia.
Qed.

(** Whatever the flux error is at a kept index, it is returned: the mask
    is computed from the quality and the flux alone. *)
Lemma reader_mask_ignores_flux_err (w : world) (filename : string) (pdc : bool)
    (quality_flag : Z) (d : gmap string value) :
  read_tess_lightcurve w filename pdc quality_flag = Ok d ->
  exists fname hdulist flux flux_err quality out,
    lookup_name w "fname" = Ok fname /\
    fits_open w fname = Ok hdulist /\
    data_field hdulist 1 "PDCSAP_FLUX" = Ok flux /\
    data_field hdulist 1 "PDCSAP_FLUX_ERR" = Ok flux_err /\
    data_field hdulist 1 "QUALITY" = Ok quality /\
    d !! "flux_err" = Some (Array out) /\
    forall i, (1 <= i < length flux)%nat ->
      equals_int quality_flag (nth i quality NaN) = true ->
      finite_scalar (nth i flux NaN) = true ->
      In (nth i flux_err NaN) out.
Proof.
  intros H.
  apply read_tess_lightcurve_ok_inv in H
    as (fname & hdulist & time & flux & flux_err & quality
        & Hname & Hopen & Ht & Hf & He & Hq & Dt & Df & De).
  exists fname, hdulist, flux, flux_err, quality,
    (select flux_err (kept_indices quality_flag quality flux)).
  repeat (split; [assumption|]).
  intros i Hi Hgood Hfin. unfold select.
  apply in_map_iff. exists i. split; [reflexivity|].
  now apply kept_indices_spec.
Qed.

(** C9.  The filter does not test the flux error: in the example file the
    sample of index 1 has the quality of the flag, a finite flux and a
    non-finite flux error, and the returned flux errors hold that
    non-finite value. *)
Theorem reader_keeps_non_finite_flux_err :
  exists (w : world) (filename : string) (quality_flag : Z) (i : nat)
         (hdulist : list HDU) (flux flux_err quality : list scalar)
         (d : gmap string value) (out : list scalar),
    fits_files w !! filename = Some hdulist /\
    data_field hdulist 1 "PDCSAP_FLUX" = Ok flux /\
    data_field hdulist 1 "PDCSAP_FLUX_ERR" = Ok flux_err /\
    data_field hdulist 1 "QUALITY" = Ok quality /\
    (1 <= i < length flux)%nat /\
    equals_int quality_flag (nth i quality NaN) = true /\
    finite_scalar (nth i flux NaN) = true /\
    finite_scalar (nth i flux_err NaN) = false /\
    read_tess_lightcurve w filename true quality_flag = Ok d /\
    d !! "flux_err" = Some (Array out) /\
    In (nth i flux_err NaN) out.
Proof.
  exists (Examples.session_with_fname "lc.fits"), "lc.fits", 0, 1%nat, Examples.hdulist.
  exists [NaN; Examples.fl 21; Examples.fl 22; Float (S754_infinity false); Examples.fl 24].
  exists [NaN; NaN; Examples.fl 2; Examples.fl 2; Examples.fl 2].
  exists [Int 0; Int 0; Int 8; Int 0; Int 0].
  destruct (read_tess_lightcurve (Examples.session_with_fname "lc.fits") "lc.fits" true 0)
    as [d|e] eqn:Hread; [|vm_compute in Hread; discriminate Hread].
  destruct (reader_mask_ignores_flux_err _ _ _ _ _ Hread)
    as (fname & hdulist & flux & flux_err & quality & out
        & Hname & Hopen & Hf & He & Hq & Dout & Hkeep).
  vm_compute in Hname. inversion Hname; subst fname.
  vm_compute in Hopen. inversion Hopen; subst hdulist.
  vm_compute in Hf. inversion Hf; subst flux.
  vm_compute in He. inversion He; subst flux_err.
  vm_compute in Hq. inversion Hq; subst quality.
  exists d, out.
  repeat (split; [reflexivity|]).
  split; [cbn; lia|].
  repeat (split; [reflexivity|]).
  split; [exact Dout|].
  apply (Hkeep 1%nat); [cbn; lia|reflexivity|reflexivity].
Qed.

(** C1.  The flag does not select the fields: the read with the flag true
    and the read with the flag false are the same computation, and on the
    example file the read with the flag false returns the samples of
    [PDCSAP_FLUX] and [PDCSAP_FLUX_ERR], not those of [SAP_FLUX] and
    [SAP_FLUX_ERR]. *)
Theorem reader_ignores_pdc_flag :
  (forall w filename quality_flag,
     read_tess_lightcurve w filename true quality_flag =
     read_tess_lightcurve w filename false quality_flag) /\
  data_field Examples.hdulist 1 "SAP_FLUX"
    = Ok [NaN; Examples.fl 11; Examples.fl 12; Examples.fl 13; Examples.fl 14] /\
  data_field Examples.hdulist 1 "PDCSAP_FLUX"
    = Ok [NaN; Examples.fl 21; Examples.fl 22; Float (S754_infinity false); Examples.fl 24] /\
  exists d,
    read_tess_lightcurve (Examples.session_with_fname "lc.fits") "lc.fits" false 0 = Ok d /\
    d !! "flux" = Some (Array [Examples.fl 21; Examples.fl 24]) /\
    d !! "flux_err" = Some (Array [NaN; Examples.fl 2]).
Proof.
  split; [reflexivity|].
  split; [reflexivity|]. split; [reflexivity|].
  eexists. split; [vm_compute; reflexivity|]. split; reflexivity.
Qed.

(** C4.  The file that is opened is not the one the parameter names: the
    result does not depend on [filename]; with no module-level [fname] the
    read of an existing file raises [NameError]; with [fname] bound to
    another file, that other file is read. *)
Theorem reader_opens_fname_not_filename :
  (forall w filename filename' pdc quality_flag,
     read_tess_lightcurve w filename pdc quality_flag =
     read_tess_lightcurve w filename' pdc quality_flag) /\
  fits_files Examples.session !! "lc.fits" = Some Examples.hdulist /\
  read_tess_lightcurve Examples.session "lc.fits" true 0 = Raise (NameError "fname") /\
  exists d,
    read_tess_lightcurve (Examples.session_with_fname "empty.fits") "lc.fits" true 0 = Ok d /\
    d !! "time" = Some (Array []).
Proof.
  split; [reflexivity|].
  split; [reflexivity|]. split; [reflexivity|].
  eexists. split; [vm_compute; reflexivity|]. reflexivity.
Qed.

(** ** Catalog builder: further properties *)

Lemma for_each_first_raise {A B} (body : A -> result B) (before after : list A)
    (x : A) (e : exception) :
  Forall (fun a => exists b, body a = Ok b) before ->
  body x = Raise e ->
  for_each body (before ++ x :: after)%list = Raise e.
Proof.
  intros Hbefore Hx. induction Hbefore as [|a before (b & Ha) _ IH].
  - cbn [app for_each]. now rewrite Hx.
  - cbn [app for_each]. rewrite Ha. cbn [mbind result_bind]. now rewrite IH.
Qed.

Lemma split_tokens (sep : ascii) (s : string) : tokens sep (split sep s).
Proof.
  unfold tokens. induction s as [|c s IH]; cbn [split].
  - now repeat constructor.
  - destruct (Ascii.eqb c sep) eqn:Ec; [now constructor|].
    pose proof (split_nonempty sep s) as Hne.
    destruct (split sep s) as [|tok toks]; [congruence|].
    inversion IH as [|? ? Htok Htoks]; subst.
    constructor; [|assumption]. cbn [contains]. now rewrite Ec, Htok.
Qed.

Lemma getitem_last_two_inv {A} (l : list A) (a b : A) :
  getitem l (-2) = Ok a -> getitem l (-1) = Ok b ->
  exists parents, l = (parents ++ [a; b])%list.
Proof.
  intros Ha Hb.
  destruct l as [|x l] using rev_ind; [discriminate|].
  destruct l as [|y l _] using rev_ind; [discriminate|].
  rewrite <- app_assoc in Ha, Hb |- *. cbn [app] in Ha, Hb |- *.
  destruct (getitem_last_two l y x) as [Ey Ex].
  rewrite Ey in Ha. rewrite Ex in Hb.
  inversion Ha; inversion Hb; subst. now exists l.
Qed.

(** What a successful decoding has gone through. *)
Lemma single_info_ok_inv (f : string) (row : dict scalar) :
  single_info f = Ok row ->
  exists parents subdir d s id c more z,
    split "/" f = (parents ++ [subdir; join "-" (d :: s :: id :: c :: more)])%list /\
    split "-" (join "-" (d :: s :: id :: c :: more)) = d :: s :: id :: c :: more /\
    int_of_str id = Some z /\
    row = catalog_row subdir (join "-" (d :: s :: id :: c :: more)) d s z c.
Proof.
  unfold single_info. intros H.
  apply bind_ok_inv in H as (subdir & Hsub & H).
  apply bind_ok_inv in H as (filename & Hfile & H).
  cbv zeta in H.
  destruct (getitem_last_two_inv _ _ _ Hsub Hfile) as (parents & Hpath).
  pose proof (join_split "-" filename) as Hjoin.
  destruct (split "-" filename) as [|d [|s [|id [|c more]]]] eqn:Hname;
    try discriminate H.
  { exfalso. rewrite getitem_0, getitem_1, getitem_2 in H.
    cbn [mbind result_bind] in H. destruct (np_int id); discriminate H. }
  rewrite getitem_0, getitem_1, getitem_2, getitem_3 in H.
  cbn [mbind result_bind] in H. unfold np_int in H.
  destruct (int_of_str id) as [z|] eqn:Hid; [|discriminate H].
  cbn [mbind result_bind] in H. inversion H; subst row; clear H.
  exists parents, subdir, d, s, id, c, more, z.
  rewrite Hjoin. repeat split; assumption.
Qed.

Lemma parse_digits_nonneg (s : string) :
  forall acc prev z, 0 <= acc -> parse_digits acc prev s = Some z -> 0 <= z.
Proof.
  induction s as [|ch s IH]; intros acc prev z Hacc H; cbn [parse_digits] in H.
  - destruct prev; [inversion H; subst; exact Hacc|discriminate].
  - destruct (Ascii.eqb ch "_"%char).
    + destruct prev; [eauto|discriminate].
    + destruct (digit_val ch) as [dv|] eqn:Hd; [|discriminate].
      apply (IH (10 * acc + dv) true z); [|exact H].
      unfold digit_val in Hd.
      destruct ((48 <=? nat_of_ascii ch)%nat && (nat_of_ascii ch <=? 57)%nat) eqn:E;
        [|discriminate].
      apply andb_true_iff in E as [E1 _]. apply Nat.leb_le in E1.
      inversion Hd; subst. lia.
Qed.

Lemma int_of_str_nonneg (s : string) (z : Z) :
  contains "-" s = false -> int_of_str s = Some z -> 0 <= z.
Proof.
  intros Hs H. unfold int_of_str, strip in H.
  rewrite <- (contains_lstrip "-"%char eq_refl), <- (contains_rstrip "-"%char eq_refl) in Hs.
  destruct (rstrip (lstrip s)) as [|ch r]; [discriminate|].
  cbn [contains] in Hs. apply orb_false_iff in Hs as [Hch _].
  rewrite Hch in H.
  destruct (Ascii.eqb ch "+"%char); eapply parse_digits_nonneg; eauto; lia.
Qed.

(** X1.  When the build returns a table, the table has one row per
    discovered path, in the order of the listing, each row holding the
    cells of the dict decoded from its path. *)
Theorem catalog_has_one_row_per_path (w : world) (datadir : string)
    (tess_info : DataFrame) :
  read_tess_info w datadir = Ok tess_info ->
  nrows tess_info = length (glob_glob w (datadir +:+ "**/*.fits")) /\
  Forall2 (fun f r => exists d, single_info f = Ok d /\ r = row_cells d)
          (glob_glob w (datadir +:+ "**/*.fits")) (rows tess_info).
Proof.
  unfold read_tess_info. intros H.
  apply bind_ok_inv in H as (recs & Hloop & H). inversion H; subst tess_info; clear H.
  assert (Hall : Forall2 (fun f r => exists d, single_info f = Ok d /\ r = row_cells d)
            (glob_glob w (datadir +:+ "**/*.fits")) (rows (DataFrame_of_records recs))).
  { pose proof (for_each_ok_Forall2 _ _ _ Hloop) as HF.
    destruct recs as [|d0 recs'] eqn:Hrecs.
    { inversion HF; constructor. }
    assert (Hcols : columns (DataFrame_of_records (d0 :: recs')) = catalog_columns).
    { apply columns_of_records; [discriminate|].
      clear -HF. induction HF; constructor; eauto using single_info_keys. }
    change (rows (DataFrame_of_records (d0 :: recs')))
      with (map (fun r => map (fun k => default NaN (dict_get r k))
                              (columns (DataFrame_of_records (d0 :: recs'))))
                (d0 :: recs')).
    rewrite Hcols. clear -HF.
    induction HF as [|f d fs ds Hf _ IH]; cbn [map]; constructor; eauto. }
  split; [|exact Hall].
  unfold nrows. symmetry. exact (Forall2_length _ _ _ Hall).
Qed.

Lemma catalog_has_one_row_per_path_witness :
  exists tess_info,
    read_tess_info MoreExamples.archive "data/" = Ok tess_info /\
    nrows tess_info = 2%nat.
Proof.
  destruct (read_tess_info MoreExamples.archive "data/") as [t|e] eqn:H;
    [|vm_compute in H; discriminate H].
  exists t. split; [reflexivity|].
  exact (proj1 (catalog_has_one_row_per_path _ _ _ H)).
Defined.

(** X2.  A discovered path without any [/] makes the loop body raise
    [IndexError] at [fsplit[-2]], whatever the file name, and the build
    raises. *)
Theorem path_without_directory_raises (f : string) :
  contains "/" f = false ->
  single_info f = Raise IndexError /\
  forall w datadir,
    In f (glob_glob w (datadir +:+ "**/*.fits")) ->
    exists e, read_tess_info w datadir = Raise e.
Proof.
  intros Hf.
  assert (H : single_info f = Raise IndexError).
  { unfold single_info. now rewrite split_token. }
  split; [exact H|].
  intros w datadir Hin. unfold read_tess_info.
  destruct (for_each_raise single_info _ f _ Hin H) as (e & ->). now exists e.
Qed.

Lemma path_without_directory_raises_witness :
  single_info "0100-S01-123456789-fast.fits" = Raise IndexError.
Proof.
  exact (proj1 (path_without_directory_raises "0100-S01-123456789-fast.fits" eq_refl)).
Defined.

(** X3.  The loop body returns a row only for a path [.../subdir/filename]
    whose file name has four hyphen-delimited tokens or more, the third a
    decimal integer; the path is recovered by joining its components, the
    file name by joining its tokens, and the row is the catalog row of
    these parts. *)
Theorem decoded_paths_are_well_formed (f : string) (row : dict scalar) :
  single_info f = Ok row ->
  exists parents subdir d s id c more z,
    let filename := join "-" (d :: s :: id :: c :: more) in
    f = join "/" (parents ++ [subdir; filename])%list /\
    tokens "/" (parents ++ [subdir; filename])%list /\
    tokens "-" (d :: s :: id :: c :: more) /\
    int_of_str id = Some z /\
    row = catalog_row subdir filename d s z c.
Proof.
  intros H.
  destruct (single_info_ok_inv _ _ H)
    as (parents & subdir & d & s & id & c & more & z & Hpath & Hname & Hid & Hrow).
  exists parents, subdir, d, s, id, c, more, z. cbv zeta.
  split; [now rewrite <- Hpath, join_split|].
  split; [rewrite <- Hpath; apply split_tokens|].
  split; [rewrite <- Hname; apply split_tokens|].
  split; assumption.
Qed.

Lemma decoded_paths_are_well_formed_witness :
  exists parents subdir d s id c more z,
    "data/batch1/0100-S01-123456789-fast.fits" =
      join "/" (parents ++ [subdir; join "-" (d :: s :: id :: c :: more)])%list /\
    int_of_str id = Some z.
Proof.
  destruct (decoded_paths_are_well_formed
              "data/batch1/0100-S01-123456789-fast.fits" _ eq_refl)
    as (parents & subdir & d & s & id & c & more & z & Hf & _ & _ & Hid & _).
  exists parents, subdir, d, s, id, c, more, z. split; assumption.
Defined.

(** X4.  The build reports the first failure: when the paths before [f]
    in the listing are decoded and the decoding of [f] raises [e], the
    build raises [e], whatever comes after. *)
Theorem catalog_build_reports_first_failure (w : world) (datadir : string)
    (before after : list string) (f : string) (e : exception) :
  glob_glob w (datadir +:+ "**/*.fits") = (before ++ f :: after)%list ->
  Forall (fun g => exists d, single_info g = Ok d) before ->
  single_info f = Raise e ->
  read_tess_info w datadir = Raise e.
Proof.
  intros Hglob Hbefore Hf. unfold read_tess_info. rewrite Hglob.
  now rewrite (for_each_first_raise single_info before after f e).
Qed.

Lemma catalog_build_reports_first_failure_witness :
  read_tess_info MoreExamples.archive_with_stray "data/" = Raise IndexError.
Proof.
  apply (catalog_build_reports_first_failure MoreExamples.archive_with_stray "data/"
           ["data/batch1/0100-S01-123456789-fast.fits"]
           ["data/batch1/0100-S01-x-fast.fits"]
           "data/batch1/notes.fits").
  - reflexivity.
  - constructor; [eexists; reflexivity|constructor].
  - reflexivity.
Defined.

(** X5.  The identifier of a decoded row is never negative: a token cut
    out between hyphens cannot carry a minus sign. *)
Theorem tess_id_is_not_negative (f : string) (row : dict scalar) :
  single_info f = Ok row ->
  exists z, dict_get row "tess_id" = Some (Int z) /\ 0 <= z.
Proof.
  intros H.
  destruct (single_info_ok_inv _ _ H)
    as (parents & subdir & d & s & id & c & more & z & _ & Hname & Hid & ->).
  exists z. split; [reflexivity|].
  apply (int_of_str_nonneg id); [|exact Hid].
  pose proof (split_tokens "-" (join "-" (d :: s :: id :: c :: more))) as Htok.
  rewrite Hname in Htok.
  inversion Htok as [|? ? _ Ht1]; subst.
  inversion Ht1 as [|? ? _ Ht2]; subst.
  inversion Ht2 as [|? ? Hgoal _]; subst. exact Hgoal.
Qed.

Lemma tess_id_is_not_negative_witness :
  exists z, dict_get (catalog_row "batch1" "0100-S01-123456789-fast.fits"
                        "0100" "S01" 123456789 "fast.fits") "tess_id" = Some (Int z)
            /\ 0 <= z.
Proof.
  exact (tess_id_is_not_negative "data/batch1/0100-S01-123456789-fast.fits" _ eq_refl).
Defined.

(** ** Cross-match merger: further properties *)

Lemma NoDup_add_labels (l2 l1 : list string) :
  List.NoDup l1 -> List.NoDup (add_labels l1 l2).
Proof.
  revert l1; induction l2 as [|c l2 IH]; intros l1 H; cbn [add_labels]; [exact H|].
  destruct (existsb (String.eqb c) l1) eqn:E; [now apply IH|].
  apply IH. apply List.NoDup_app; [exact H|repeat constructor; intros []|].
  intros a Ha [<-|[]]. exact (existsb_eqb_false _ _ E Ha).
Qed.

Lemma NoDup_union_labels (objs : list DataFrame) (acc : list string) :
  List.NoDup acc ->
  List.NoDup (fold_left (fun acc df => add_labels acc (columns df)) objs acc).
Proof.
  revert acc; induction objs as [|df objs IH]; intros acc H; cbn [fold_left];
    [exact H|]. now apply IH, NoDup_add_labels.
Qed.

Lemma NoDup_sort_labels (l : list string) :
  List.NoDup l -> List.NoDup (sort_labels l).
Proof.
  induction 1 as [|c l Hc _ IH]; cbn [sort_labels fold_right]; [constructor|].
  fold (sort_labels l).
  assert (Hc' : ~ In c (sort_labels l)) by (now rewrite In_sort_labels).
  clear Hc. induction (sort_labels l) as [|a m IHm]; cbn [insert_sorted].
  - repeat constructor. intros [].
  - destruct (String.leb c a); [now constructor|].
    inversion IH as [|? ? Ha Hm]; subst. constructor.
    + rewrite In_insert_sorted. intros [->|?]; [apply Hc'; now left|contradiction].
    + apply IHm; [exact Hm|]. intros ?; apply Hc'; now right.
Qed.

Lemma Sorted_sort_labels (l : list string) :
  Sorted (fun a b => String.leb a b = true) (sort_labels l).
Proof.
  induction l as [|c l IH]; cbn [sort_labels fold_right]; [constructor|].
  fold (sort_labels l).
  induction IH as [|a m Hm IHm Ha]; cbn [insert_sorted].
  - repeat constructor.
  - destruct (String.leb c a) eqn:E.
    + constructor; [now constructor|now constructor].
    + assert (Hac : String.leb a c = true).
      { destruct (String.leb_total a c) as [?|?]; [assumption|congruence]. }
      constructor; [exact IHm|].
      destruct m as [|b m]; cbn [insert_sorted].
      * now constructor.
      * inversion Ha; subst. destruct (String.leb c b); now constructor.
Qed.

Lemma no_duplicates_checked (objs : list DataFrame) :
  Forall (fun df => has_duplicates (columns df) = false) objs ->
  existsb (fun df => has_duplicates (columns df)) objs = false.
Proof.
  induction 1 as [|df objs Hdf _ IH]; [reflexivity|].
  cbn [existsb]. now rewrite Hdf, IH.
Qed.

Lemma for_each_read_csv (w : world) (gaia_files : list string) :
  Forall (fun g => exists df, csv_files w !! g = Some df /\
                              has_duplicates (columns df) = false) gaia_files ->
  exists gaiamatch,
    for_each (read_csv w) gaia_files = Ok gaiamatch /\
    length gaiamatch = length gaia_files /\
    Forall (fun df => has_duplicates (columns df) = false) gaiamatch.
Proof.
  induction 1 as [|g gs (df & Hg & Hdf) _ (tables & Htables & Hlen & Hdup)].
  - exists []. repeat split; constructor.
  - exists (df :: tables). cbn [for_each].
    assert (Hread : read_csv w g = Ok df) by (unfold read_csv; now rewrite Hg).
    rewrite Hread. cbn [mbind result_bind]. rewrite Htables. cbn [mbind result_bind length].
    repeat split; [congruence|now constructor].
Qed.

(** X6.  The merger stops at the first reference file whose load fails
    and raises the error of that load, whatever the catalog and the files
    after it: [FileNotFoundError] for a path that does not exist, the error
    of the reader for a path that exists and cannot be read or parsed. *)
Theorem crossmatch_reports_first_failed_load (w : world) (tess_info : DataFrame)
    (before after : list string) (path : string) :
  Forall (fun g => is_Some (csv_files w !! g)) before ->
  csv_files w !! path = None ->
  crossmatch_gaia w tess_info (before ++ path :: after)%list =
    Raise (match io_errors w !! path with
           | Some e => e
           | None => FileNotFoundError path
           end).
Proof.
  intros Hbefore Hpath. unfold crossmatch_gaia.
  rewrite (for_each_first_raise (read_csv w) before after path (read_error w path)).
  - reflexivity.
  - clear -Hbefore. induction Hbefore as [|g gs [df Hg] _ IH]; constructor; [|exact IH].
    exists df. unfold read_csv. now rewrite Hg.
  - unfold read_csv. now rewrite Hpath.
Qed.

Lemma crossmatch_reports_first_failed_load_witness :
  crossmatch_gaia MoreExamples.session_with_empty_csv Examples.catalog
    ["gaia.csv"; "missing.csv"; "empty.csv"] = Raise (FileNotFoundError "missing.csv") /\
  crossmatch_gaia MoreExamples.session_with_empty_csv Examples.catalog
    ["gaia.csv"; "empty.csv"; "missing.csv"] = Raise EmptyDataError.
Proof.
  split.
  - apply (crossmatch_reports_first_failed_load MoreExamples.session_with_empty_csv
             Examples.catalog ["gaia.csv"] ["empty.csv"] "missing.csv").
    + constructor; [eexists; reflexivity|constructor].
    + reflexivity.
  - apply (crossmatch_reports_first_failed_load MoreExamples.session_with_empty_csv
             Examples.catalog ["gaia.csv"] ["missing.csv"] "empty.csv").
    + constructor; [eexists; reflexivity|constructor].
    + reflexivity.
Defined.

(** X7.  With a non-empty list of readable reference files whose tables
    have distinct column labels, the files are loaded, the concatenation
    succeeds, and the merger raises [TypeError] at the join, whatever the
    catalog. *)
Theorem crossmatch_raises_type_error (w : world) (tess_info : DataFrame)
    (gaia_files : list string) :
  gaia_files <> [] ->
  Forall (fun g => exists df, csv_files w !! g = Some df /\
                              has_duplicates (columns df) = false) gaia_files ->
  (exists gaiamatch gaia_merged,
     for_each (read_csv w) gaia_files = Ok gaiamatch /\
     pd_concat gaiamatch = Ok gaia_merged) /\
  crossmatch_gaia w tess_info gaia_files = Raise TypeError.
Proof.
  intros Hne Hfiles.
  destruct (for_each_read_csv w gaia_files Hfiles) as (tables & Hload & Hlen & Hdup).
  assert (Hconcat : exists merged, pd_concat tables = Ok merged).
  { unfold pd_concat. destruct tables as [|df tables].
    - destruct gaia_files; [congruence|discriminate].
    - rewrite (no_duplicates_checked _ Hdup). eauto. }
  destruct Hconcat as (merged & Hconcat).
  split; [now exists tables, merged|].
  unfold crossmatch_gaia. rewrite Hload. cbn [mbind result_bind].
  rewrite Hconcat. reflexivity.
Qed.

Lemma crossmatch_raises_type_error_witness :
  crossmatch_gaia Examples.session Examples.empty_catalog ["gaia.csv"; "gaia.csv"]
    = Raise TypeError.
Proof.
  refine (proj2 (crossmatch_raises_type_error Examples.session Examples.empty_catalog
                   ["gaia.csv"; "gaia.csv"] _ _)).
  - discriminate.
  - repeat constructor; eexists; split; reflexivity.
Defined.

(** X8.  Whenever the concatenation returns a table, the table is well
    formed: its column labels are distinct and in sorted order, and every
    row has one cell per column. *)
Theorem concat_table_is_well_formed (objs : list DataFrame) (merged : DataFrame) :
  pd_concat objs = Ok merged ->
  List.NoDup (columns merged) /\
  Sorted (fun a b => String.leb a b = true) (columns merged) /\
  Forall (fun r => length r = length (columns merged)) (rows merged).
Proof.
  unfold pd_concat. intros H.
  destruct objs as [|df objs]; [discriminate|].
  remember (df :: objs) as tables eqn:Etables. clear Etables.
  destruct (existsb _ tables); [discriminate|].
  injection H as <-. cbn [columns rows].
  split; [apply NoDup_sort_labels, NoDup_union_labels; constructor|].
  split; [apply Sorted_sort_labels|].
  apply List.Forall_forall. intros r Hr.
  apply in_map_iff in Hr as (r0 & <- & _).
  unfold upcast_row. apply length_map.
Qed.

Lemma concat_table_is_well_formed_witness :
  exists merged,
    pd_concat [Examples.gaia_a; Examples.gaia_b] = Ok merged /\
    List.NoDup (columns merged).
Proof.
  destruct (pd_concat [Examples.gaia_a; Examples.gaia_b]) as [merged|e] eqn:H;
    [|vm_compute in H; discriminate H].
  exists merged. split; [reflexivity|].
  exact (proj1 (concat_table_is_well_formed _ _ H)).
Defined.

(** ** Observation reader: further properties *)

Lemma header_card_0 (hdu : HDU) (rest : list HDU) (key : string) :
  header_card (hdu :: rest) 0 key =
    match header hdu !! key with
    | Some v => Ok v
    | None => Raise (KeyError key)
    end.
Proof. unfold header_card. now rewrite getitem_0. Qed.

Lemma data_field_1 (hdu0 hdu1 : HDU) (rest : list HDU) (name : string) :
  data_field (hdu0 :: hdu1 :: rest) 1 name =
    match data hdu1 with
    | None => Raise AttributeError
    | Some t =>
        j ← field_index (names t) name;
        Ok (map (fun r => nth j r NaN) (records t))
    end.
Proof. unfold data_field. now rewrite getitem_1. Qed.

Lemma data_dtype_1 (hdu0 hdu1 : HDU) (rest : list HDU) (name : string) :
  data_dtype (hdu0 :: hdu1 :: rest) 1 name =
    match data hdu1 with
    | Some t =>
        match field_index (names t) name with
        | Ok j => nth j (formats t) numeric
        | Raise _ => numeric
        end
    | None => numeric
    end.
Proof. unfold data_dtype. now rewrite getitem_1. Qed.

Lemma field_index_raises (names : list string) (key : string) (e : exception) :
  field_index names key = Raise e -> e = KeyError key.
Proof.
  unfold field_index. destruct (column_index names (str_rstrip key)); [discriminate|].
  destruct (count_occ _ _ _) as [|[|n]]; try (now inversion 1).
  destruct (column_index _ _); [discriminate|now inversion 1].
Qed.

Lemma header_complete (hdu : HDU) (rest : list HDU) :
  first_missing_card (header hdu) = None ->
  forall card, In card (map fst header_fields) ->
    exists v, header_card (hdu :: rest) 0 card = Ok v.
Proof.
  intros Hnone card Hin. rewrite header_card_0.
  pose proof (find_none _ _ Hnone card Hin) as H. cbv beta in H.
  destruct (header hdu !! card) as [v|]; [now exists v|discriminate].
Qed.



(** Steps over the fifteen header reads of a complete header. *)
Ltac pass_header Hcards :=
  repeat match goal with
  | |- context [header_card (?h :: ?r) 0 ?c] =>
      let v := fresh "v" in
      let E := fresh "E" in
      destruct (Hcards c ltac:(cbn; auto 20)) as (v & E);
      rewrite E; cbn [mbind result_bind]
  end.

(** X10.  When the primary header lacks a card, the read raises [KeyError]
    for the first lacking card in the order [TSTART], [TSTOP], ...,
    [RADIUS], before any series is read. *)
Theorem reader_reports_first_missing_card (w : world) (filename : string)
    (pdc : bool) (quality_flag : Z) (fname : value) (hdu : HDU) (rest : list HDU)
    (card : string) :
  lookup_name w "fname" = Ok fname ->
  fits_open w fname = Ok (hdu :: rest) ->
  first_missing_card (header hdu) = Some card ->
  read_tess_lightcurve w filename pdc quality_flag = Raise (KeyError card).
Proof.
  intros Hname Hopen Hfirst. unfold read_tess_lightcurve.
  rewrite Hname. cbn [mbind result_bind]. rewrite Hopen. cbn [mbind result_bind].
  cbv zeta. rewrite !header_card_0.
  unfold first_missing_card in Hfirst. cbn [map fst header_fields List.find] in Hfirst.
  repeat lazymatch type of Hfirst with
  | (if match ?m with Some _ => _ | None => _ end then _ else _) = _ =>
      destruct m; cbn [mbind result_bind];
      [|inversion Hfirst; subst; reflexivity]
  end.
  discriminate Hfirst.
Qed.

Lemma reader_reports_first_missing_card_witness :
  read_tess_lightcurve (MoreExamples.session_with_fname "short_header.fits")
    "short_header.fits" true 0 = Raise (KeyError "TEFF").
Proof.
  eapply (reader_reports_first_missing_card
            (MoreExamples.session_with_fname "short_header.fits")).
  - reflexivity.
  - reflexivity.
  - reflexivity.
Defined.

(** X11.  With a complete primary header, a file without a second unit
    raises [IndexError]; a second unit that carries no table raises
    [AttributeError]; a table in which one of the keys [TIME],
    [PDCSAP_FLUX], [PDCSAP_FLUX_ERR], [QUALITY] denotes no field (no field
    of exactly that name and not exactly one field of that name up to case
    and trailing whitespace) raises [KeyError] for the first such key in
    that order. *)
Theorem reader_rejects_files_without_table (w : world) (filename : string)
    (pdc : bool) (quality_flag : Z) (fname : value) (hdu0 : HDU) (rest : list HDU) :
  lookup_name w "fname" = Ok fname ->
  fits_open w fname = Ok (hdu0 :: rest) ->
  first_missing_card (header hdu0) = None ->
  (rest = [] ->
   read_tess_lightcurve w filename pdc quality_flag = Raise IndexError) /\
  (forall hdu1 rest', rest = hdu1 :: rest' -> data hdu1 = None ->
   read_tess_lightcurve w filename pdc quality_flag = Raise AttributeError) /\
  (forall hdu1 rest' t name, rest = hdu1 :: rest' -> data hdu1 = Some t ->
   first_missing_field t = Some name ->
   read_tess_lightcurve w filename pdc quality_flag = Raise (KeyError name)).
Proof.
  intros Hname Hopen Hheader.
  pose proof (header_complete hdu0 rest Hheader) as Hcards.
  unfold read_tess_lightcurve.
  rewrite Hname. cbn [mbind result_bind]. rewrite Hopen. cbn [mbind result_bind].
  cbv zeta. pass_header Hcards.
  split; [|split].
  - intros ->. reflexivity.
  - intros hdu1 rest' -> Hdata. rewrite !data_field_1, Hdata. reflexivity.
  - intros hdu1 rest' t name -> Hdata Hfirst. rewrite !data_field_1, Hdata.
    unfold first_missing_field in Hfirst. cbn [read_fields List.find] in Hfirst.
    repeat lazymatch type of Hfirst with
    | (if match ?m with Ok _ => _ | Raise _ => _ end then _ else _) = _ =>
        let E := fresh "E" in
        destruct m eqn:E; cbn [fmap result_fmap mbind result_bind];
        [|apply field_index_raises in E; subst; inversion Hfirst; subst; reflexivity]
    end.
    discriminate Hfirst.
Qed.

Lemma reader_rejects_files_without_table_witness :
  read_tess_lightcurve (MoreExamples.session_with_fname "primary_only.fits")
    "primary_only.fits" true 0 = Raise IndexError /\
  read_tess_lightcurve (MoreExamples.session_with_fname "image.fits")
    "image.fits" true 0 = Raise AttributeError /\
  read_tess_lightcurve (MoreExamples.session_with_fname "no_quality.fits")
    "no_quality.fits" true 0 = Raise (KeyError "QUALITY") /\
  read_tess_lightcurve (MoreExamples.session_with_fname "ambiguous.fits")
    "ambiguous.fits" true 0 = Raise (KeyError "TIME").
Proof.
  split; [|split; [|split]].
  - refine (proj1 (reader_rejects_files_without_table
              (MoreExamples.session_with_fname "primary_only.fits") _ _ _
              (Scalar (Str "primary_only.fits")) MoreExamples.primary [] _ _ _) _);
      reflexivity.
  - refine (proj1 (proj2 (reader_rejects_files_without_table
              (MoreExamples.session_with_fname "image.fits") _ _ _
              (Scalar (Str "image.fits")) MoreExamples.primary
              [{| header := ∅; data := None |}] _ _ _)) _ _ _ _);
      reflexivity.
  - refine (proj2 (proj2 (reader_rejects_files_without_table
              (MoreExamples.session_with_fname "no_quality.fits") _ _ _
              (Scalar (Str "no_quality.fits")) MoreExamples.primary
              [{| header := ∅; data := Some MoreExamples.no_quality |}] _ _ _))
              _ _ MoreExamples.no_quality _ _ _ _);
      reflexivity.
  - refine (proj2 (proj2 (reader_rejects_files_without_table
              (MoreExamples.session_with_fname "ambiguous.fits") _ _ _
              (Scalar (Str "ambiguous.fits")) MoreExamples.primary
              [{| header := ∅; data := Some MoreExamples.ambiguous_curve |}] _ _ _))
              _ _ MoreExamples.ambiguous_curve _ _ _ _);
      reflexivity.
Defined.



Lemma Ok_inj {A} (a b : A) : Ok a = Ok b -> a = b.
Proof. now inversion 1. Qed.

(** X9.  The record of a successful read has exactly the eighteen keys of
    the docstring's record: each of the fifteen header keys holds the value
    of its card in the primary header of the opened file, and [time],
    [flux] and [flux_err] hold arrays. *)
Theorem reader_record_contents (w : world) (filename : string) (pdc : bool)
    (quality_flag : Z) (d : gmap string value) :
  read_tess_lightcurve w filename pdc quality_flag = Ok d ->
  dom d = list_to_set record_keys /\
  (exists fname hdulist,
     lookup_name w "fname" = Ok fname /\ fits_open w fname = Ok hdulist /\
     Forall (fun '(card, key) =>
               exists v, header_card hdulist 0 card = Ok v /\
                         d !! key = Some (Scalar v)) header_fields) /\
  Forall (fun key => exists a, d !! key = Some (Array a)) ["time"; "flux"; "flux_err"].
Proof.
  intros H.
  destruct (read_tess_lightcurve_record _ _ _ _ _ H) as (Hdom & Hcards).
  apply read_tess_lightcurve_ok_inv in H
    as (_ & _ & time & flux & flux_err & quality & _ & _ & _ & _ & _ & _ & Dt & Df & De).
  split; [exact Hdom|]. split; [exact Hcards|].
  repeat constructor; eauto.
Qed.

Lemma reader_record_contents_witness :
  exists d,
    read_tess_lightcurve (Examples.session_with_fname "lc.fits") "lc.fits" true 0 = Ok d /\
    dom d = list_to_set record_keys.
Proof.
  eexists. split; [reflexivity|].
  exact (proj1 (reader_record_contents
                  (Examples.session_with_fname "lc.fits") "lc.fits" true 0 _ eq_refl)).
Defined.

Lemma nth_seq_all (a : list scalar) :
  map (fun i => nth i a NaN) (seq 0 (length a)) = a.
Proof.
  induction a as [|x a IH]; [reflexivity|].
  cbn [length seq map nth]. rewrite <- seq_shift, map_map. cbn [nth]. now rewrite IH.
Qed.

Lemma select_all_but_first (a : list scalar) :
  select a (seq 1 (length a - 1)) = drop 1 a.
Proof.
  unfold select. destruct a as [|x a]; [reflexivity|].
  cbn [length drop]. rewrite Nat.sub_succ, Nat.sub_0_r, drop_0.
  rewrite <- seq_shift, map_map. cbn [nth]. apply nth_seq_all.
Qed.

Lemma filter_all (P : nat -> bool) (l : list nat) :
  (forall i, In i l -> P i = true) -> List.filter P l = l.
Proof.
  induction l as [|i l IH]; intros H; [reflexivity|].
  cbn [List.filter]. rewrite (H i) by now left.
  rewrite IH; [reflexivity|]. intros j Hj. apply H. now right.
Qed.

Lemma filter_none (P : nat -> bool) (l : list nat) :
  (forall i, In i l -> P i = false) -> List.filter P l = [].
Proof.
  induction l as [|i l IH]; intros H; [reflexivity|].
  cbn [List.filter]. rewrite (H i) by now left.
  apply IH. intros j Hj. apply H. now right.
Qed.

Lemma select_sublist (a : list scalar) (P : nat -> bool) (m k : nat) :
  (k + m <= length a)%nat ->
  map (fun i => nth i a NaN) (List.filter P (seq k m)) `sublist_of` drop k a.
Proof.
  revert k; induction m as [|m IH]; intros k Hk.
  - cbn. apply sublist_nil_l.
  - cbn [seq List.filter].
    assert (Hlt : (k < length a)%nat) by lia.
    destruct (lookup_lt_is_Some_2 a k Hlt) as (x & Hx).
    rewrite (drop_S a x k Hx).
    specialize (IH (S k) ltac:(lia)).
    destruct (P k); [|now apply sublist_cons].
    cbn [map]. rewrite (nth_lookup_Some a k NaN x Hx). now apply sublist_skip.
Qed.

Lemma select_kept_sublist (q : Z) (a quality flux : list scalar) :
  length a = length flux ->
  select a (kept_indices q quality flux) `sublist_of` drop 1 a.
Proof.
  intros Hlen. unfold select, kept_indices.
  destruct flux as [|z flux]; [apply sublist_nil_l|].
  apply select_sublist. cbn [length] in *. lia.
Qed.

(** X13.  On a successful read, if every sample after the first has the
    quality of the flag and a finite flux, the three returned series are
    the raw series without their first sample; if no sample after the
    first has the quality of the flag, the three returned series are
    empty. *)
Theorem reader_on_clean_and_on_rejected_curves (w : world) (filename : string)
    (pdc : bool) (quality_flag : Z) (d : gmap string value) :
  read_tess_lightcurve w filename pdc quality_flag = Ok d ->
  exists fname hdulist time flux flux_err quality,
    lookup_name w "fname" = Ok fname /\
    fits_open w fname = Ok hdulist /\
    data_field hdulist 1 "TIME" = Ok time /\
    data_field hdulist 1 "PDCSAP_FLUX" = Ok flux /\
    data_field hdulist 1 "PDCSAP_FLUX_ERR" = Ok flux_err /\
    data_field hdulist 1 "QUALITY" = Ok quality /\
    ((forall i, (1 <= i < length flux)%nat ->
        equals_int quality_flag (nth i quality NaN) = true /\
        finite_scalar (nth i flux NaN) = true) ->
     d !! "time" = Some (Array (drop 1 time)) /\
     d !! "flux" = Some (Array (drop 1 flux)) /\
     d !! "flux_err" = Some (Array (drop 1 flux_err))) /\
    ((forall i, (1 <= i < length flux)%nat ->
        equals_int quality_flag (nth i quality NaN) = false) ->
     d !! "time" = Some (Array []) /\
     d !! "flux" = Some (Array []) /\
     d !! "flux_err" = Some (Array [])).
Proof.
  intros H.
  apply read_tess_lightcurve_ok_inv in H
    as (fname & hdulist & time & flux & flux_err & quality
        & Hname & Hopen & Ht & Hf & He & Hq & Dt & Df & De).
  exists fname, hdulist, time, flux, flux_err, quality.
  repeat (split; [assumption|]).
  pose proof (data_field_length _ _ _ _ _ _ Ht Hf) as Lt.
  pose proof (data_field_length _ _ _ _ _ _ He Hf) as Le.
  split.
  - intros Hclean.
    assert (Hkept : kept_indices quality_flag quality flux = seq 1 (length flux - 1)).
    { unfold kept_indices. apply filter_all. intros i Hi. apply in_seq in Hi.
      destruct (Hclean i ltac:(lia)) as [-> ->]. reflexivity. }
    rewrite Hkept in Dt, Df, De.
    rewrite <- Lt in Dt. rewrite <- Le in De.
    now rewrite select_all_but_first in Dt, Df, De.
  - intros Hbad.
    assert (Hkept : kept_indices quality_flag quality flux = []).
    { unfold kept_indices. apply filter_none. intros i Hi. apply in_seq in Hi.
      now rewrite (Hbad i ltac:(lia)). }
    rewrite Hkept in Dt, Df, De. auto.
Qed.

Lemma reader_on_clean_and_on_rejected_curves_witness :
  exists d,
    read_tess_lightcurve (MoreExamples.session_with_fname "clean.fits") "clean.fits" true 0
      = Ok d /\
    d !! "time" = Some (Array [Examples.fl 101; Examples.fl 102]).
Proof.
  eexists. split; [reflexivity|].
  destruct (reader_on_clean_and_on_rejected_curves
              (MoreExamples.session_with_fname "clean.fits") "clean.fits" true 0 _ eq_refl)
    as (fname & hdulist & time & flux & flux_err & quality
        & Hname & Hopen & Ht & Hf & He & Hq & Hclean & _).
  assert (fname = Scalar (Str "clean.fits")) as ->
    by (apply Ok_inj; rewrite <- Hname; reflexivity).
  assert (hdulist = [MoreExamples.primary;
                     {| header := ∅; data := Some MoreExamples.clean_curve |}]) as ->
    by (apply Ok_inj; rewrite <- Hopen; reflexivity).
  assert (flux = [NaN; Examples.fl 21; Examples.fl 22]) as ->
    by (apply Ok_inj; rewrite <- Hf; reflexivity).
  assert (quality = [Int 0; Int 0; Int 0]) as ->
    by (apply Ok_inj; rewrite <- Hq; reflexivity).
  assert (time = [Examples.fl 100; Examples.fl 101; Examples.fl 102]) as ->
    by (apply Ok_inj; rewrite <- Ht; reflexivity).
  apply Hclean. intros i Hi. cbn [length] in Hi.
  assert (Hcases : i = 1%nat \/ i = 2%nat) by lia.
  destruct Hcases as [-> | ->]; split; reflexivity.
Defined.

(** X14.  On a successful read, each returned series is a subsequence of
    its raw series without the first sample: samples are dropped, never
    added, repeated or reordered. *)
Theorem reader_returns_subsequences (w : world) (filename : string) (pdc : bool)
    (quality_flag : Z) (d : gmap string value) :
  read_tess_lightcurve w filename pdc quality_flag = Ok d ->
  exists fname hdulist time flux flux_err out_time out_flux out_flux_err,
    lookup_name w "fname" = Ok fname /\
    fits_open w fname = Ok hdulist /\
    data_field hdulist 1 "TIME" = Ok time /\
    data_field hdulist 1 "PDCSAP_FLUX" = Ok flux /\
    data_field hdulist 1 "PDCSAP_FLUX_ERR" = Ok flux_err /\
    d !! "time" = Some (Array out_time) /\
    d !! "flux" = Some (Array out_flux) /\
    d !! "flux_err" = Some (Array out_flux_err) /\
    out_time `sublist_of` drop 1 time /\
    out_flux `sublist_of` drop 1 flux /\
    out_flux_err `sublist_of` drop 1 flux_err.
Proof.
  intros H.
  apply read_tess_lightcurve_ok_inv in H
    as (fname & hdulist & time & flux & flux_err & quality
        & Hname & Hopen & Ht & Hf & He & Hq & Dt & Df & De).
  pose proof (data_field_length _ _ _ _ _ _ Ht Hf) as Lt.
  pose proof (data_field_length _ _ _ _ _ _ He Hf) as Le.
  exists fname, hdulist, time, flux, flux_err.
  do 3 eexists.
  repeat (split; [eassumption|]).
  split; [|split]; apply select_kept_sublist; congruence.
Qed.

Lemma reader_returns_subsequences_witness :
  exists d out_time,
    read_tess_lightcurve (Examples.session_with_fname "lc.fits") "lc.fits" true 0 = Ok d /\
    d !! "time" = Some (Array out_time) /\
    (length out_time <= 4)%nat.
Proof.
  destruct (reader_returns_subsequences
              (Examples.session_with_fname "lc.fits") "lc.fits" true 0 _ eq_refl)
    as (fname & hdulist & time & flux & flux_err & out_time & out_flux & out_flux_err
        & Hname & Hopen & Ht & _ & _ & Dt & _ & _ & Hsub & _).
  eexists. exists out_time. split; [reflexivity|]. split; [exact Dt|].
  assert (fname = Scalar (Str "lc.fits")) as ->
    by (apply Ok_inj; rewrite <- Hname; reflexivity).
  assert (hdulist = Examples.hdulist) as ->
    by (apply Ok_inj; rewrite <- Hopen; reflexivity).
  assert (time = [Examples.fl 100; Examples.fl 101; Examples.fl 102;
                  Examples.fl 103; Examples.fl 104]) as ->
    by (apply Ok_inj; rewrite <- Ht; reflexivity).
  exact (sublist_length _ _ Hsub).
Defined.
